(** * Mock Firestore: a shallow embedding of [mockFirestore.ts]

    The module under verification is an in-memory, path-addressed document
    store with snapshot listeners and a seconds/nanoseconds timestamp.
    Every definition below is a transcription of the TypeScript function of
    the same name.

    Modelling conventions.
    - A JS [number] is an exact rational ([Q]); [Math.floor] is [Qfloor].
      Binary64 rounding, NaN and the infinities are outside the model.
    - A JS object is an association list in property-creation order without
      repeated keys; [OMap.set] is the assignment [o[k] = v].  (The engine's
      reordering of integer-like keys is not modelled; statements about
      fields are phrased with [OMap.get].)
    - A JS [Map] / [Set] whose iteration order is observed (a collection, a
      listener set) is a list in insertion order; the two outer registries
      ([store], [listeners]), whose order is never observed, are [gmap]s.
    - A listener callback is an opaque observer named by a number; calling
      it appends the pair (listener, snapshot) to the [calls] trace of the
      state.  Callbacks do not re-enter the store.
    - [Math.random] is an oracle [randomId : nat -> string]; the state counts
      how many identifiers were drawn.
    - An [async] function is its synchronous body; a rejected promise is
      [Throw]. *)

From Stdlib Require Import String Ascii List QArith Qround Qabs ZArith Lia.
From stdpp Require Import gmap strings list fin_maps pretty.
Import ListNotations.
Local Open Scope string_scope.
Set Warnings "-register-all".

(** ** JavaScript values *)

Inductive value : Type :=
  | VUndefined
  | VNull
  | VBool (b : bool)
  | VNum (n : Q)
  | VStr (s : string)
  | VTimestamp (seconds nanoseconds : Q)
  | VArr (items : list value)
  | VObj (fields : list (string * value)).

(** [Record<string, unknown>] *)
Definition DocData : Type := list (string * value).

(** *** Insertion-ordered dictionaries

    The behaviour shared by a JS object's own properties and by a JS [Map]
    with string keys: lookup by key, assignment that keeps the place of an
    existing key and appends a new one, removal, enumeration in order. *)

Module OMap.

Fixpoint get {A} (k : string) (o : list (string * A)) : option A :=
  match o with
  | [] => None
  | (k', v) :: r => if String.eqb k k' then Some v else get k r
  end.

(** [k in o] *)
Definition has {A} (k : string) (o : list (string * A)) : bool :=
  match get k o with Some _ => true | None => false end.

(** [o[k] = v]: an existing property keeps its place, a new one goes last *)
Fixpoint set {A} (k : string) (v : A) (o : list (string * A)) : list (string * A) :=
  match o with
  | [] => [(k, v)]
  | (k', v') :: r =>
      if String.eqb k k' then (k', v) :: r else (k', v') :: set k v r
  end.

(** [delete o[k]] *)
Fixpoint delete {A} (k : string) (o : list (string * A)) : list (string * A) :=
  match o with
  | [] => []
  | (k', v') :: r =>
      if String.eqb k k' then r else (k', v') :: delete k r
  end.

Definition keys {A} (o : list (string * A)) : list string := map fst o.

(** copying the own properties of [src] onto [target], in order *)
Definition assign {A} (target src : list (string * A)) : list (string * A) :=
  fold_left (fun next kv => set (fst kv) (snd kv) next) src target.

(** [{ ...a }] *)
Definition copy {A} (a : list (string * A)) : list (string * A) :=
  assign [] a.

(** [{ ...a, ...b }] *)
Definition spread {A} (a b : list (string * A)) : list (string * A) :=
  assign (assign [] a) b.

End OMap.

(** ** Timestamp *)

Module Timestamp.

Record t : Type := Timestamp { seconds : Q; nanoseconds : Q }.

Definition floor (x : Q) : Q := inject_Z (Qfloor x).

Definition fromMillis (milliseconds : Q) : t :=
  let seconds := floor (milliseconds / 1000) in
  let nanoseconds := floor ((milliseconds - seconds * 1000) * 1000000) in
  Timestamp seconds nanoseconds.

Definition toMillis (ts : t) : Q :=
  seconds ts * 1000 + floor (nanoseconds ts / 1000000).


End Timestamp.

(** ** clone *)

Fixpoint clone (v : value) : value :=
  match v with
  | VTimestamp s n => VTimestamp s n
  | VArr items => VArr (map clone items)
  | VObj fields =>
      VObj ((fix entries (es next : list (string * value)) :=
               match es with
               | [] => next
               | (key, val) :: r => entries r (OMap.set key (clone val) next)
               end) fields [])
  | other => other
  end.

(** [clone] at the type [DocData] *)
Definition cloneData (d : DocData) : DocData :=
  match clone (VObj d) with
  | VObj d' => d'
  | _ => []
  end.

(** ** Strings: [split], [filter(Boolean)], [pop], [join] *)

Definition slash : ascii := "/"%char.

(** [s.split("/")] *)
Fixpoint split (s : string) : list string :=
  match s with
  | EmptyString => [""]
  | String c r =>
      if Ascii.eqb c slash then "" :: split r
      else match split r with
           | h :: t => String c h :: t
           | [] => [String c ""]
           end
  end.

(** [Boolean(s)] on a string *)
Definition truthy (s : string) : bool :=
  match s with EmptyString => false | String _ _ => true end.

(** [parts.join(sep)] on an array of strings *)
Fixpoint joinWith (sep : string) (parts : list string) : string :=
  match parts with
  | [] => ""
  | [p] => p
  | p :: r => p ++ sep ++ joinWith sep r
  end.

Definition join (parts : list string) : string := joinWith "/" parts.

Record SplitPath : Type := mkSplitPath { collectionPath : string; docId : string }.

Definition splitDocPath (path : string) : SplitPath :=
  let parts := List.filter truthy (split path) in
  (* [parts.pop() ?? ""] removes and returns the last element *)
  let id := List.last parts "" in
  let parts := List.removelast parts in
  {| collectionPath := join parts; docId := id |}.

(** ** References *)

Record CollectionRef : Type := mkCollectionRef { collection_path : string }.
Record DocRef : Type := mkDocRef { doc_path : string }.

Inductive Result (A : Type) : Type :=
  | Ok (a : A)
  | Throw (message : string).
Arguments Ok {A} a.
Arguments Throw {A} message.

(** the three reference shapes as plain JS objects, as [doc] receives them *)
Definition dbValue : value := VObj [("_type", VStr "db")].
Definition collectionValue (r : CollectionRef) : value :=
  VObj [("_type", VStr "collection"); ("path", VStr (collection_path r))].
Definition docValue (r : DocRef) : value :=
  VObj [("_type", VStr "doc"); ("path", VStr (doc_path r))].

(** [value._type === tag] behind [typeof value === "object" && value !== null];
    arrays and Timestamp instances carry no [_type] property *)
Definition hasType (tag : string) (v : value) : bool :=
  match v with
  | VObj fields =>
      match OMap.get "_type" fields with
      | Some (VStr t) => String.eqb t tag
      | _ => false
      end
  | _ => false
  end.

Definition isCollectionRef (v : value) : bool := hasType "collection" v.
Definition isDbRef (v : value) : bool := hasType "db" v.

Definition invalidDocArguments : string := "Invalid doc() arguments".

Section Doc.

(** the engine's Number-to-string conversion, not part of the repository *)
Variable numberToString : Q -> string.

(** [String(v)], also what a template literal applies *)
Fixpoint toString (v : value) : string :=
  match v with
  | VUndefined => "undefined"
  | VNull => "null"
  | VBool true => "true"
  | VBool false => "false"
  | VNum n => numberToString n
  | VStr s => s
  | VTimestamp _ _ => "[object Object]"
  | VArr items =>
      joinWith ","
        (map (fun x => match x with
                       | VUndefined | VNull => ""
                       | _ => toString x
                       end) items)
  | VObj _ => "[object Object]"
  end.

(** an element of an array under [join]: null and undefined print empty *)
Definition joinElement (v : value) : string :=
  match v with
  | VUndefined | VNull => ""
  | _ => toString v
  end.

(** [args[0].path] read off an arbitrary value, then printed *)
Definition pathProperty (v : value) : string :=
  match v with
  | VObj fields =>
      match OMap.get "path" fields with
      | Some p => toString p
      | None => "undefined"
      end
  | _ => "undefined"
  end.

Definition doc (args : list value) : Result DocRef :=
  let arg (i : nat) := nth i args VUndefined in
  if (length args =? 2)%nat && isCollectionRef (arg 0%nat)
  then Ok {| doc_path := pathProperty (arg 0%nat) ++ "/" ++ toString (arg 1%nat) |}
  else if (2 <=? length args)%nat && isDbRef (arg 0%nat)
       then Ok {| doc_path := joinWith "/" (map joinElement (skipn 1 args)) |}
       else Throw invalidDocArguments.

End Doc.

(** ** Snapshots *)

Record DocSnapshot : Type := mkDocSnapshot {
  snap_id : string;
  (** the [data] argument captured by the closures [exists] and [data] *)
  snap_captured : option DocData;
  snap_ref : DocRef
}.

Definition snap_exists (d : DocSnapshot) : bool :=
  match snap_captured d with Some _ => true | None => false end.

Definition snap_data (d : DocSnapshot) : option DocData :=
  match snap_captured d with Some data => Some (cloneData data) | None => None end.

Record CollectionSnapshot : Type := mkCollectionSnapshot {
  docs : list DocSnapshot;
  size : nat;
  empty : bool;
  coll_ref : CollectionRef
}.

Definition docChanges (c : CollectionSnapshot) : list (string * DocSnapshot) :=
  map (fun d => ("added", d)) (docs c).

Inductive Snapshot : Type :=
  | OfDoc (d : DocSnapshot)
  | OfCollection (c : CollectionSnapshot).

(** ** The store and the listener registry *)

Definition Listener : Type := nat.

(** a JS [Set] of listeners in insertion order *)
Module LSet.

Definition mem (l : Listener) (s : list Listener) : bool :=
  existsb (Nat.eqb l) s.

Definition add (l : Listener) (s : list Listener) : list Listener :=
  if mem l s then s else s ++ [l].

Definition delete (l : Listener) (s : list Listener) : list Listener :=
  List.filter (fun x => negb (Nat.eqb l x)) s.

End LSet.

(** a collection: the JS [Map] from document id to fields, in insertion order *)
Abbreviation Collection := (list (string * DocData)).

Record State : Type := mkState {
  store : gmap string (list (string * DocData));
  listeners : gmap string (list Listener);
  (** every callback invocation so far, oldest first *)
  calls : list (Listener * Snapshot);
  (** how many identifiers [generateId] has produced *)
  drawn : nat
}.

Definition initial : State :=
  {| store := ∅; listeners := ∅; calls := []; drawn := 0 |}.

Definition withStore (f : gmap string (list (string * DocData)) -> gmap string (list (string * DocData)))
    (s : State) : State :=
  {| store := f (store s); listeners := listeners s; calls := calls s; drawn := drawn s |}.

Definition withListeners (f : gmap string (list Listener) -> gmap string (list Listener))
    (s : State) : State :=
  {| store := store s; listeners := f (listeners s); calls := calls s; drawn := drawn s |}.

(** [callback(snapshot)] *)
Definition invoke (snapshot : Snapshot) (s : State) (callback : Listener) : State :=
  {| store := store s; listeners := listeners s;
     calls := calls s ++ [(callback, snapshot)]; drawn := drawn s |}.

(** the [Map] stored under [path] is replaced as a whole; this is how the
    model writes through the reference that [ensureCollection] returned *)
Definition putCollection (path : string) (c : Collection) (s : State) : State :=
  withStore (fun st => <[path := c]> st) s.

Definition ensureCollection (path : string) (s : State) : Collection * State :=
  match store s !! path with
  | Some c => (c, s)
  | None => ([], putCollection path [] s)
  end.

Definition notify (path : string) (snapshot : Snapshot) (s : State) : State :=
  match listeners s !! path with
  | None => s
  | Some subs => fold_left (invoke snapshot) subs s
  end.

Definition createDocSnapshot (collectionPath id : string) (data : option DocData)
    : DocSnapshot :=
  {| snap_id := id;
     snap_captured := data;
     snap_ref := {| doc_path := collectionPath ++ "/" ++ id |} |}.

Definition createCollectionSnapshot (collectionPath : string) (s : State)
    : CollectionSnapshot * State :=
  let '(collection, s) := ensureCollection collectionPath s in
  let docs := map (fun e => createDocSnapshot collectionPath (fst e) (Some (snd e)))
                  collection in
  ({| docs := docs;
      size := length docs;
      empty := (length docs =? 0)%nat;
      coll_ref := {| collection_path := collectionPath |} |}, s).

Definition emitCollection (collectionPath : string) (s : State) : State :=
  let '(snapshot, s) := createCollectionSnapshot collectionPath s in
  notify collectionPath (OfCollection snapshot) s.

Definition emitDoc (collectionPath id : string) (s : State) : State :=
  let '(collection, s) := ensureCollection collectionPath s in
  let data := OMap.get id collection in
  let s := notify (collectionPath ++ "/" ++ id)
                  (OfDoc (createDocSnapshot collectionPath id data)) s in
  emitCollection collectionPath s.

(** ** The public operations *)

Definition notFound (path : string) : string :=
  "Document " ++ path ++ " does not exist".

Definition getDocs (collectionRef : CollectionRef) (s : State)
    : Result CollectionSnapshot * State :=
  let '(snapshot, s) := createCollectionSnapshot (collection_path collectionRef) s in
  (Ok snapshot, s).

Definition getDoc (docRef : DocRef) (s : State) : Result DocSnapshot * State :=
  let '(mkSplitPath collectionPath id) := splitDocPath (doc_path docRef) in
  let '(collection, s) := ensureCollection collectionPath s in
  (Ok (createDocSnapshot collectionPath id (OMap.get id collection)), s).

Definition setDoc (docRef : DocRef) (data : DocData) (merge : bool) (s : State)
    : Result unit * State :=
  let '(mkSplitPath collectionPath id) := splitDocPath (doc_path docRef) in
  let '(collection, s) := ensureCollection collectionPath s in
  let s :=
    if merge && OMap.has id collection
    then
      let current := match OMap.get id collection with Some c => c | None => [] end in
      putCollection collectionPath
        (OMap.set id (OMap.spread current (cloneData data)) collection) s
    else
      putCollection collectionPath (OMap.set id (cloneData data) collection) s in
  (Ok tt, emitDoc collectionPath id s).

Definition updateDoc (docRef : DocRef) (data : DocData) (s : State)
    : Result unit * State :=
  let '(mkSplitPath collectionPath id) := splitDocPath (doc_path docRef) in
  let '(collection, s) := ensureCollection collectionPath s in
  if negb (OMap.has id collection)
  then (Throw (notFound (doc_path docRef)), s)
  else
    let current := match OMap.get id collection with Some c => c | None => [] end in
    let s := putCollection collectionPath
               (OMap.set id (OMap.spread current (cloneData data)) collection) s in
    (Ok tt, emitDoc collectionPath id s).

Definition deleteDoc (docRef : DocRef) (s : State) : Result unit * State :=
  let '(mkSplitPath collectionPath id) := splitDocPath (doc_path docRef) in
  let '(collection, s) := ensureCollection collectionPath s in
  let s := putCollection collectionPath (OMap.delete id collection) s in
  (Ok tt, emitDoc collectionPath id s).

(** what [onSnapshot] may be given: [CollectionRef | DocRef] *)
Inductive Watched : Type :=
  | WCollection (r : CollectionRef)
  | WDoc (r : DocRef).

Definition watched_path (r : Watched) : string :=
  match r with
  | WCollection c => collection_path c
  | WDoc d => doc_path d
  end.

Definition onSnapshot (ref : Watched) (callback : Listener) (s : State) : State :=
  let path := watched_path ref in
  let s := match listeners s !! path with
           | Some _ => s
           | None => withListeners (fun ls => <[path := []]> ls) s
           end in
  let s := withListeners
             (fun ls => match ls !! path with
                        | Some subs => <[path := LSet.add callback subs]> ls
                        | None => ls
                        end) s in
  match ref with
  | WCollection _ =>
      let '(snapshot, s) := createCollectionSnapshot path s in
      invoke (OfCollection snapshot) s callback
  | WDoc _ =>
      let '(mkSplitPath collectionPath id) := splitDocPath path in
      let '(collection, s) := ensureCollection collectionPath s in
      invoke (OfDoc (createDocSnapshot collectionPath id (OMap.get id collection))) s
             callback
  end.

(** the closure returned by [onSnapshot ref callback] *)
Definition unsubscribe (ref : Watched) (callback : Listener) (s : State) : State :=
  let path := watched_path ref in
  match listeners s !! path with
  | None => s
  | Some subs =>
      let subs := LSet.delete callback subs in
      if (length subs =? 0)%nat
      then withListeners (fun ls => delete path ls) s
      else withListeners (fun ls => <[path := subs]> ls) s
  end.

Section Generated.

(** [Math.random]-based identifiers: the [n]-th identifier produced *)
Variable randomId : nat -> string.

Definition generateId (s : State) : string * State :=
  (randomId (drawn s),
   {| store := store s; listeners := listeners s; calls := calls s;
      drawn := S (drawn s) |}).

Definition addDoc (collectionRef : CollectionRef) (data : DocData) (s : State)
    : Result DocRef * State :=
  let '(id, s) := generateId s in
  let '(collection, s) := ensureCollection (collection_path collectionRef) s in
  let s := putCollection (collection_path collectionRef)
             (OMap.set id (cloneData data) collection) s in
  let s := emitDoc (collection_path collectionRef) id s in
  (Ok {| doc_path := collection_path collectionRef ++ "/" ++ id |}, s).

(** The body of the [items.forEach] callback of [replaceCollection], acting
    on the collection [Map] the loop holds and on the identifier counter.
    [rawItem[idField] as string | undefined] is an unchecked cast to the key
    type of the collection: a value that is neither a string nor nullish
    would become a key outside [Map<string, DocData>], which this model
    cannot hold, so the step yields [None] there. *)
Definition replaceItem (idField : string)
    (acc : option (Collection * State)) (rawItem : DocData)
    : option (Collection * State) :=
  match acc with
  | None => None
  | Some (collection, s) =>
      let chosen :=
        match OMap.get idField rawItem with
        | Some (VStr id) => Some (id, s)
        | None | Some VUndefined | Some VNull => Some (generateId s)
        | Some _ => None
        end in
      match chosen with
      | None => None
      | Some (id, s) =>
          let data := OMap.copy rawItem in
          let data := if OMap.has idField data then OMap.delete idField data else data in
          Some (OMap.set id (cloneData data) collection, s)
      end
  end.

Definition replaceCollection (collectionPath : string) (items : list DocData)
    (idFieldOption : option string) (s : State) : option State :=
  let s := putCollection collectionPath [] s in
  let idField := match idFieldOption with Some f => f | None => "id" end in
  let '(collection, s) := ensureCollection collectionPath s in
  match fold_left (replaceItem idField) items (Some (collection, s)) with
  | Some (collection, s) =>
      Some (emitCollection collectionPath (putCollection collectionPath collection s))
  | None => None
  end.

End Generated.

(** * Further functions of the source *)

(** ** Dates

    A JS [Date] is its time value: a whole number of milliseconds since the
    epoch, or invalid (the time value NaN).  [new Date(x)] clips a number:
    beyond 8.64e15 in absolute value the date is invalid, otherwise the
    number is truncated towards zero. *)

Inductive Date : Type :=
  | ValidDate (time : Z)
  | InvalidDate.

Definition maxTime : Z := 8640000000000000.

(** truncation towards zero *)
Definition truncate (x : Q) : Z := Z.quot (Qnum x) (Zpos (Qden x)).

Definition newDate (x : Q) : Date :=
  if Qle_bool (Qabs x) (inject_Z maxTime)
  then ValidDate (truncate x)
  else InvalidDate.

Module TimestampDate.

(** [toDate()] *)
Definition toDate (ts : Timestamp.t) : Date := newDate (Timestamp.toMillis ts).

(** [Timestamp.fromDate(date)]; [getTime()] of an invalid date is NaN, which
    the numbers of this model do not have: no result there *)
Definition fromDate (date : Date) : option Timestamp.t :=
  match date with
  | ValidDate time => Some (Timestamp.fromMillis (inject_Z time))
  | InvalidDate => None
  end.

(** [Timestamp.now()], given what [Date.now()] returns *)
Definition now (dateNow : Z) : Timestamp.t :=
  Timestamp.fromMillis (inject_Z dateNow).

End TimestampDate.

(** [!value] *)
Definition falsy (v : value) : bool :=
  match v with
  | VUndefined | VNull => true
  | VBool b => negb b
  | VNum n => Qeq_bool n 0
  | VStr s => negb (truthy s)
  | VTimestamp _ _ | VArr _ | VObj _ => false
  end.

(** a [Timestamp] instance has the own properties [seconds] and
    [nanoseconds]; an array has neither *)
Definition isTimestampLike (v : value) : bool :=
  match v with
  | VTimestamp _ _ => true
  | VObj fields =>
      match OMap.get "seconds" fields with
      | Some (VNum _) => true
      | _ => false
      end
  | _ => false
  end.

(** what [timestampToDate] returns: [null] or a [Date] *)
Inductive DateOrNull : Type :=
  | Null
  | ADate (d : Date).

(** [(value.nanoseconds ?? 0) / 1e6] converts a [nanoseconds] that is not a
    number with the engine's ToNumber; the model covers a [nanoseconds] that
    is absent, [undefined], [null] or a number, and has no result
    otherwise *)
Definition timestampToDate (v : value) : option DateOrNull :=
  if falsy v then Some Null
  else
    match v with
    | VTimestamp s n =>
        Some (ADate (TimestampDate.toDate (Timestamp.Timestamp s n)))
    | VObj fields =>
        match OMap.get "seconds" fields with
        | Some (VNum s) =>
            match OMap.get "nanoseconds" fields with
            | None | Some VUndefined | Some VNull =>
                Some (ADate (newDate (s * 1000 + Timestamp.floor (0 / 1000000))))
            | Some (VNum n) =>
                Some (ADate (newDate (s * 1000 + Timestamp.floor (n / 1000000))))
            | Some _ => None
            end
        | _ => Some Null
        end
    | _ => Some Null
    end.

(** ** Reference constructors *)

Definition getMockFirestore : value := dbValue.

(** [collection(db, path)]: the database argument is not looked at *)
Definition collection (db : value) (path : string) : CollectionRef :=
  {| collection_path := path |}.

(** ** The vehicle routes ([routes/vehicle.ts])

    A request is its parsed JSON body; a response is the status code and the
    JSON body sent ([response.json] alone answers 200). *)

Record Response : Type := mkResponse { statusCode : nat; sent : value }.

(** [v[name]] for a name that is neither ["length"] nor an index: defined
    on objects and [Timestamp] instances, [undefined] on everything else.
    The routes read properties only behind [?? {}], so never of [null] or
    [undefined], where JavaScript throws. *)
Definition property (name : string) (v : value) : value :=
  match v with
  | VObj fields =>
      match OMap.get name fields with Some x => x | None => VUndefined end
  | VTimestamp s n =>
      if String.eqb name "seconds" then VNum s
      else if String.eqb name "nanoseconds" then VNum n
      else VUndefined
  | _ => VUndefined
  end.

(** the own enumerable properties of an array: its indices, in order *)
Fixpoint arrayEntries (i : nat) (items : list value) : list (string * value) :=
  match items with
  | [] => []
  | x :: r => (pretty i, x) :: arrayEntries (S i) r
  end.

(** [{ ...v }] for an arbitrary value.  Spreading a non-empty string copies
    its UTF-16 code units, which the byte strings of this model do not
    have: no result there. *)
Definition spreadValue (v : value) : option DocData :=
  match v with
  | VObj fields => Some (OMap.copy fields)
  | VArr items => Some (OMap.copy (arrayEntries 0 items))
  | VTimestamp s n => Some [("seconds", VNum s); ("nanoseconds", VNum n)]
  | VUndefined | VNull | VBool _ | VNum _ => Some []
  | VStr s => if truthy s then None else Some []
  end.

(** [v ?? {}] *)
Definition orEmptyObject (v : value) : value :=
  match v with
  | VUndefined | VNull => VObj []
  | _ => v
  end.

Definition timestampValue (ts : Timestamp.t) : value :=
  VTimestamp (Timestamp.seconds ts) (Timestamp.nanoseconds ts).

Section VehicleRoutes.

(** the engine's [new Date(string)] *)
Variable parseDate : string -> Date.
(** the engine's Number-to-string conversion *)
Variable numberToString : Q -> string.
Variable randomId : nat -> string.

Definition normalizeUpdatedAt (v : value) : value :=
  if falsy v then v
  else
    match v with
    | VTimestamp _ _ => v
    | VNum n => timestampValue (Timestamp.fromMillis n)
    | VStr s =>
        match TimestampDate.fromDate (parseDate s) with
        | Some ts => timestampValue ts
        | None => v
        end
    | _ => v
    end.

(** [if ("updatedAt" in o) o.updatedAt = normalizeUpdatedAt(o.updatedAt)] *)
Definition normalizeField (o : DocData) : DocData :=
  if OMap.has "updatedAt" o
  then OMap.set "updatedAt" (normalizeUpdatedAt (property "updatedAt" (VObj o))) o
  else o.

(** [router.patch("/")] *)
Definition patchVehicle (body : value) (s : State) : option (Response * State) :=
  let body := orEmptyObject body in
  let id := property "id" body in
  let updates := property "updates" body in
  if falsy id
  then Some ({| statusCode := 400;
                sent := VObj [("error", VStr "id is required")] |}, s)
  else
    match spreadValue (orEmptyObject updates) with
    | None => None
    | Some nextUpdates =>
        let nextUpdates := normalizeField nextUpdates in
        let failed := {| statusCode := 500;
                         sent := VObj [("error", VStr "update_failed")] |} in
        match doc numberToString
                  [collectionValue (collection getMockFirestore "vehicles"); id] with
        | Throw _ => Some (failed, s)
        | Ok docRef =>
            match setDoc docRef nextUpdates true s with
            | (Throw _, s) => Some (failed, s)
            | (Ok _, s) =>
                Some ({| statusCode := 200; sent := VObj [("ok", VBool true)] |}, s)
            end
        end
    end.


End VehicleRoutes.

(** ** Seed data and the background task ([MockFirestoreContext.jsx]) *)

Record UserSeed : Type := mkUserSeed {
  user_id : string; user_name : string; user_role : string
}.

Record VehicleSeed : Type := mkVehicleSeed {
  seed_make : string; seed_model : string; basePrice : Q
}.

Definition initialUsers : list UserSeed :=
  [ mkUserSeed "u1" "Alex Chen" "Designer";
    mkUserSeed "u2" "Priya Patel" "Engineer";
    mkUserSeed "u3" "Jordan Smith" "Product" ].

Definition vehicleStatuses : list string :=
  [ "New"; "Consigned"; "Arrived"; "Inspected"; "On Block"; "Sold"; "Paid" ].

Definition vehicleSeeds : list VehicleSeed :=
  [ mkVehicleSeed "Honda" "Accord" 14850;
    mkVehicleSeed "Toyota" "Camry" 18200;
    mkVehicleSeed "Ford" "F-150" 28900;
    mkVehicleSeed "Chevrolet" "Silverado" 31250;
    mkVehicleSeed "Nissan" "Altima" 17650;
    mkVehicleSeed "Hyundai" "Elantra" 16400;
    mkVehicleSeed "Kia" "Sorento" 23100;
    mkVehicleSeed "BMW" "3 Series" 36400;
    mkVehicleSeed "Audi" "A4" 38200;
    mkVehicleSeed "Subaru" "Outback" 25600 ].

(** the object literal of a user *)
Definition userObject (u : UserSeed) : DocData :=
  [ ("id", VStr (user_id u)); ("name", VStr (user_name u));
    ("role", VStr (user_role u)) ].

(** [k] characters taken from [fill] over and over; [rest] is what is left
    of the current copy *)
Fixpoint cycle (k : nat) (fill rest : string) : string :=
  match k with
  | O => ""
  | S k' =>
      match rest with
      | String c r => String c (cycle k' fill r)
      | EmptyString =>
          match fill with
          | String c r => String c (cycle k' fill r)
          | EmptyString => ""
          end
      end
  end.

(** [s.padStart(targetLength, fill)] *)
Definition padStart (targetLength : nat) (fill s : string) : string :=
  if (targetLength <=? String.length s)%nat then s
  else if truthy fill
       then cycle (targetLength - String.length s) fill fill ++ s
       else s.

(** [String(n)] and [`${n}`] for a natural number *)
Definition decimal (n : nat) : string := pretty n.

Definition buildVin (index : nat) : string :=
  "VIN" ++ padStart 8 "0" (decimal (index + 1)).

(** the first user and the first vehicle seed stand for [undefined] in the
    three array reads below, whose index is a remainder and never out of
    range *)
Definition initialVehicle (clock : nat -> Z) (index : nat) : DocData :=
  let seed := nth (index mod length vehicleSeeds) vehicleSeeds
                  (mkVehicleSeed "" "" 0) in
  let owner := nth (index mod length initialUsers) initialUsers
                   (mkUserSeed "" "" "") in
  let updater := nth ((index + 1) mod length initialUsers) initialUsers
                     (mkUserSeed "" "" "") in
  [ ("id", VStr ("v" ++ decimal (index + 1)));
    ("vin", VStr (buildVin index));
    ("make", VStr (seed_make seed));
    ("model", VStr (seed_model seed));
    ("status", VStr (nth (index mod length vehicleStatuses) vehicleStatuses ""));
    ("book_price",
     VNum (basePrice seed + inject_Z (Z.of_nat (index mod 10)) * 250));
    ("updatedAt", timestampValue (TimestampDate.now (clock index)));
    ("ownerId", VStr (user_id owner));
    ("updatedBy", VStr (user_id updater)) ].

(** [Array.from({ length: 100 }, ...)]; [clock i] is what [Date.now()]
    returns while element [i] is built *)
Definition initialVehicles (clock : nat -> Z) : list DocData :=
  map (initialVehicle clock) (seq 0 100).

(** [xs[i]] for an integer [i]; [None] is [undefined] *)
Definition element {A} (xs : list A) (i : Z) : option A :=
  if (i <? 0)%Z then None else nth_error xs (Z.to_nat i).

(** [Math.round]: halves go up *)
Definition round (x : Q) : Z := Qfloor (x + (1 # 2)).

(** [Math.max(a, b)] *)
Definition maxNumber (a b : Q) : Q := if Qle_bool a b then b else a.

Definition typeErrorOfUndefined : string :=
  "TypeError: Cannot read properties of undefined"%string.

Section Provider.
Variable randomId : nat -> string.
Variable numberToString : Q -> string.

(** the seeding of the provider's effect (it runs once) *)
Definition seedCollections (clock : nat -> Z) (s : State) : option State :=
  match replaceCollection randomId "users" (map userObject initialUsers)
                          (Some "id") s with
  | Some s =>
      replaceCollection randomId "vehicles" (initialVehicles clock) (Some "id") s
  | None => None
  end.

(** One run of the interval callback.  [r1] to [r4] are the four values of
    [Math.random()] it draws, in order, and [dateNow] the reading of the
    clock.  [Throw] is a rejection of the callback's promise. *)
Definition tick (r1 r2 r3 r4 : Q) (dateNow : Z) (s : State) : Result unit * State :=
  let vehicleCollection := collection getMockFirestore "vehicles" in
  let userCollection := collection getMockFirestore "users" in
  let '(vehicles, s) := getDocs vehicleCollection s in
  let '(users, s) := getDocs userCollection s in
  match vehicles, users with
  | Throw m, _ | _, Throw m => (Throw m, s)
  | Ok vehicleSnapshot, Ok userSnapshot =>
      if empty vehicleSnapshot then (Ok tt, s)
      else
        match element (docs vehicleSnapshot)
                (Qfloor (r1 * inject_Z (Z.of_nat (length (docs vehicleSnapshot))))) with
        | None => (Throw typeErrorOfUndefined, s)
        | Some target =>
            let current :=
              match snap_data target with Some d => d | None => [] end in
            let availableUsers :=
              if empty userSnapshot
              then map userObject initialUsers
              else map (fun docSnap =>
                          OMap.assign [("id", VStr (snap_id docSnap))]
                            (match snap_data docSnap with
                             | Some d => d
                             | None => []
                             end))
                       (docs userSnapshot) in
            let randomUser :=
              element availableUsers
                (Qfloor (r2 * inject_Z (Z.of_nat (length availableUsers)))) in
            let shouldChangePrice := negb (Qle_bool (7 # 10) r3) in
            let priceDelta := round (r4 * 900 - 450) in
            let updatedBy :=
              match randomUser with
              | Some user =>
                  match OMap.get "id" user with
                  | None | Some VUndefined | Some VNull => VStr "u1"
                  | Some id => id
                  end
              | None => VStr "u1"
              end in
            let nextUpdates :=
              [ ("updatedAt", timestampValue (TimestampDate.now dateNow));
                ("updatedBy", updatedBy) ] in
            let nextUpdates :=
              if shouldChangePrice
              then
                let basePrice : Q :=
                  match OMap.get "book_price" current with
                  | Some (VNum price) => price
                  | _ => 15000%Q
                  end in
                OMap.set "book_price"
                  (VNum (maxNumber 500 (basePrice + inject_Z priceDelta))) nextUpdates
              else nextUpdates in
            match doc numberToString
                      [collectionValue vehicleCollection; VStr (snap_id target)] with
            | Throw m => (Throw m, s)
            | Ok docRef => updateDoc docRef nextUpdates s
            end
        end
  end.

End Provider.

(** * Notions used to state the properties *)

(** ** Well-formed values *)

(** a value is well formed when no object in it repeats a key: the
    representation invariant of JS objects in this model *)
Fixpoint wf (v : value) : Prop :=
  match v with
  | VArr items =>
      (fix all (l : list value) : Prop :=
         match l with [] => True | x :: r => wf x /\ all r end) items
  | VObj fields =>
      List.NoDup (OMap.keys fields) /\
      (fix all (l : list (string * value)) : Prop :=
         match l with [] => True | kv :: r => wf (snd kv) /\ all r end) fields
  | _ => True
  end.

Definition wfData (d : DocData) : Prop := wf (VObj d).

Definition cloneEntry (kv : string * value) : string * value :=
  (fst kv, clone (snd kv)).

(** induction over values that reaches inside arrays and objects *)
Section ValueInduction.
Variable P : value -> Prop.
Hypothesis Hundefined : P VUndefined.
Hypothesis Hnull : P VNull.
Hypothesis Hbool : forall b, P (VBool b).
Hypothesis Hnum : forall n, P (VNum n).
Hypothesis Hstr : forall s, P (VStr s).
Hypothesis Htimestamp : forall s n, P (VTimestamp s n).
Hypothesis Harr : forall items, List.Forall P items -> P (VArr items).
Hypothesis Hobj : forall fields,
    List.Forall (fun kv => P (snd kv)) fields -> P (VObj fields).

Fixpoint value_nested_ind (v : value) : P v :=
  match v with
  | VUndefined => Hundefined
  | VNull => Hnull
  | VBool b => Hbool b
  | VNum n => Hnum n
  | VStr s => Hstr s
  | VTimestamp s n => Htimestamp s n
  | VArr items =>
      Harr items
        ((fix all (l : list value) : List.Forall P l :=
            match l with
            | [] => @List.Forall_nil _ P
            | x :: r => @List.Forall_cons _ P x r (value_nested_ind x) (all r)
            end) items)
  | VObj fields =>
      Hobj fields
        ((fix all (l : list (string * value))
            : List.Forall (fun kv => P (snd kv)) l :=
            match l with
            | [] => @List.Forall_nil _ _
            | kv :: r =>
                @List.Forall_cons _ (fun kv => P (snd kv)) kv r
                  (value_nested_ind (snd kv)) (all r)
            end) fields)
  end.
End ValueInduction.

(** ** Views of the state *)

(** the documents of a collection, absent meaning empty *)
Definition contents (path : string) (s : State) : Collection :=
  match store s !! path with Some c => c | None => [] end.

(** the listeners registered on a path, in registration order *)
Definition subscribers (path : string) (s : State) : list Listener :=
  match listeners s !! path with Some subs => subs | None => [] end.

(** the state after the given callback invocations *)
Definition called (cs : list (Listener * Snapshot)) (s : State) : State :=
  {| store := store s; listeners := listeners s;
     calls := (calls s ++ cs)%list; drawn := drawn s |}.

(** the collection snapshot of a given content *)
Definition snapshotOf (path : string) (c : Collection) : CollectionSnapshot :=
  fst (createCollectionSnapshot path (putCollection path c initial)).

(** the snapshots a reader obtains in state [s] *)
Definition docSnapshotAt (collectionPath id : string) (s : State) : DocSnapshot :=
  createDocSnapshot collectionPath id (OMap.get id (contents collectionPath s)).

Definition collectionSnapshotAt (collectionPath : string) (s : State)
    : CollectionSnapshot :=
  fst (createCollectionSnapshot collectionPath s).

(** one [notify]: every listener of the path receives the snapshot *)
Definition deliveries (path : string) (snapshot : Snapshot) (s : State)
    : list (Listener * Snapshot) :=
  map (fun l => (l, snapshot)) (subscribers path s).

(** the state once [generateId] has drawn an identifier *)
Definition afterDraw (s : State) : State :=
  {| store := store s; listeners := listeners s; calls := calls s;
     drawn := S (drawn s) |}.

(** the state once [callback] is registered on [path] *)
Definition registered (path : string) (callback : Listener) (s : State)
  : State :=
  withListeners
    (fun ls => <[path := LSet.add callback (subscribers path s)]> ls) s.

Definition withDrawn (n : nat) (s : State) : State :=
  {| store := store s; listeners := listeners s; calls := calls s; drawn := n |}.

(** ** The document-level mutations in closed form *)

(** the collection after [setDoc] *)
Definition setDocContent (merge : bool) (id : string) (data : DocData)
    (c : Collection) : Collection :=
  if merge && OMap.has id c
  then OMap.set id
         (OMap.spread (match OMap.get id c with Some d => d | None => [] end)
                      (cloneData data)) c
  else OMap.set id (cloneData data) c.

(** the collection after a successful [updateDoc] *)
Definition updateDocContent (id : string) (data : DocData) (c : Collection)
    : Collection :=
  OMap.set id
    (OMap.spread (match OMap.get id c with Some d => d | None => [] end)
                 (cloneData data)) c.

(** the two notifications of [emitDoc] for a collection of content [c] *)
Definition docDeliveries (p id : string) (c : Collection) (s : State)
    : list (Listener * Snapshot) :=
  (deliveries (p ++ "/" ++ id) (OfDoc (createDocSnapshot p id (OMap.get id c))) s
   ++ deliveries p (OfCollection (snapshotOf p c)) s)%list.

(** a write of [c] to collection [p] followed by [emitDoc p id] *)
Definition written (p id : string) (c : Collection) (s : State) : State :=
  called (docDeliveries p id c s) (putCollection p c s).


(** ** Calling conventions of [doc] *)



(** ** Path segments *)

(** a segment: a string without ["/"] *)
Fixpoint slashFree (s : string) : bool :=
  match s with
  | EmptyString => true
  | String c r => negb (Ascii.eqb c slash) && slashFree r
  end.

(** ** Bulk replacement *)

(** the identifier field of an item has a type the cast
    [as string | undefined] (with [null] let through by [??]) allows for *)
Definition typedItem (idField : string) (item : DocData) : Prop :=
  match OMap.get idField item with
  | None | Some VUndefined | Some VNull | Some (VStr _) => True
  | Some _ => False
  end.

Section ReplacePlan.
Variable randomId : nat -> string.
Variable idField : string.

(** what [replaceCollection] is to store, item by item: the identifier
    (the item's own when it is a string, else the next generated one) and
    the fields without the identifier field; [n] counts the identifiers
    generated so far *)
Fixpoint planned (n : nat) (items : list DocData) : list (string * DocData) :=
  match items with
  | [] => []
  | item :: r =>
      match OMap.get idField item with
      | Some (VStr id) =>
          (id, cloneData (OMap.delete idField item)) :: planned n r
      | _ =>
          (randomId n, cloneData (OMap.delete idField item)) :: planned (S n) r
      end
  end.

Fixpoint drawnAfter (n : nat) (items : list DocData) : nat :=
  match items with
  | [] => n
  | item :: r =>
      match OMap.get idField item with
      | Some (VStr _) => drawnAfter n r
      | _ => drawnAfter (S n) r
      end
  end.

End ReplacePlan.

(** ** Histories of operations *)

Inductive Op : Type :=
  | OpGetDocs (r : CollectionRef)
  | OpGetDoc (r : DocRef)
  | OpAddDoc (r : CollectionRef) (data : DocData)
  | OpSetDoc (r : DocRef) (data : DocData) (merge : bool)
  | OpUpdateDoc (r : DocRef) (data : DocData)
  | OpDeleteDoc (r : DocRef)
  | OpOnSnapshot (ref : Watched) (callback : Listener)
  | OpUnsubscribe (ref : Watched) (callback : Listener)
  | OpReplaceCollection (path : string) (items : list DocData)
                        (idFieldOption : option string).

(** the arguments of the operation are objects, and identifier fields have a
    type the store can hold *)
Definition typedOp (op : Op) : Prop :=
  match op with
  | OpReplaceCollection _ items idFieldOption =>
      List.Forall
        (typedItem (match idFieldOption with Some f => f | None => "id" end)) items /\
      List.Forall (fun item => List.NoDup (OMap.keys item)) items
  | _ => True
  end.

(** the collection an operation can put a document into, if any:
    [updateDoc] only rewrites a document that is already there and
    [deleteDoc] only removes one *)
Definition populates (op : Op) : option string :=
  match op with
  | OpAddDoc r _ => Some (collection_path r)
  | OpSetDoc r _ _ => Some (collectionPath (splitDocPath (doc_path r)))
  | OpReplaceCollection path _ _ => Some path
  | _ => None
  end.

(** [op] is no [addDoc], [setDoc] or [replaceCollection] on collection [p] *)
Definition neverWrites (p : string) (op : Op) : Prop := populates op <> Some p.

(** membership in a list of identifiers *)
Definition inb (id : string) (ids : list string) : bool :=
  existsb (String.eqb id) ids.

(** what happens to the identifier sequence of a collection *)
Inductive KeyEvent : Type :=
  | Insert (id : string)
  | Remove (id : string)
  | Reset.

Fixpoint removeFirst (id : string) (ids : list string) : list string :=
  match ids with
  | [] => []
  | x :: r => if String.eqb id x then r else x :: removeFirst id r
  end.

Definition applyKey (ids : list string) (e : KeyEvent) : list string :=
  match e with
  | Insert id => if inb id ids then ids else (ids ++ [id])%list
  | Remove id => removeFirst id ids
  | Reset => []
  end.

Definition isInsert (e : KeyEvent) : Prop :=
  match e with Insert _ => True | _ => False end.

Definition insertedId (e : KeyEvent) : list string :=
  match e with Insert id => [id] | _ => [] end.

(** the identifiers of a sequence in order of first occurrence *)
Definition firstOccurrences (ids : list string) : list string :=
  fold_left (fun acc id => if inb id acc then acc else (acc ++ [id])%list) ids [].

(** the identifiers listed by a collection snapshot *)
Definition snapshotIds (p : string) (s : State) : list string :=
  map snap_id (docs (collectionSnapshotAt p s)).

Section History.
Variable randomId : nat -> string.

Definition step (s : State) (op : Op) : option State :=
  match op with
  | OpGetDocs r => Some (snd (getDocs r s))
  | OpGetDoc r => Some (snd (getDoc r s))
  | OpAddDoc r data => Some (snd (addDoc randomId r data s))
  | OpSetDoc r data merge => Some (snd (setDoc r data merge s))
  | OpUpdateDoc r data => Some (snd (updateDoc r data s))
  | OpDeleteDoc r => Some (snd (deleteDoc r s))
  | OpOnSnapshot ref callback => Some (onSnapshot ref callback s)
  | OpUnsubscribe ref callback => Some (unsubscribe ref callback s)
  | OpReplaceCollection path items idFieldOption =>
      replaceCollection randomId path items idFieldOption s
  end.

Fixpoint run (ops : list Op) (s : State) : option State :=
  match ops with
  | [] => Some s
  | op :: r =>
      match step s op with
      | Some s' => run r s'
      | None => None
      end
  end.

(** the key events of collection [p] caused by [op] started in [s] *)
Definition effect (p : string) (s : State) (op : Op) : list KeyEvent :=
  match op with
  | OpAddDoc r _ =>
      if String.eqb (collection_path r) p then [Insert (randomId (drawn s))] else []
  | OpSetDoc r _ _ =>
      if String.eqb (collectionPath (splitDocPath (doc_path r))) p
      then [Insert (docId (splitDocPath (doc_path r)))] else []
  | OpUpdateDoc r _ =>
      if String.eqb (collectionPath (splitDocPath (doc_path r))) p
         && OMap.has (docId (splitDocPath (doc_path r))) (contents p s)
      then [Insert (docId (splitDocPath (doc_path r)))] else []
  | OpDeleteDoc r =>
      if String.eqb (collectionPath (splitDocPath (doc_path r))) p
      then [Remove (docId (splitDocPath (doc_path r)))] else []
  | OpReplaceCollection path items idFieldOption =>
      if String.eqb path p
      then Reset :: map Insert
             (OMap.keys
                (planned randomId
                   (match idFieldOption with Some f => f | None => "id" end)
                   (drawn s) items))
      else []
  | _ => []
  end.

Fixpoint events (p : string) (s : State) (ops : list Op) : list KeyEvent :=
  match ops with
  | [] => []
  | op :: r =>
      (effect p s op
       ++ match step s op with
          | Some s' => events p s' r
          | None => []
          end)%list
  end.

(** the identifiers written into [p] by a history, in order of first write *)
Definition firstWritten (p : string) (s : State) (ops : list Op) : list string :=
  firstOccurrences (flat_map insertedId (events p s ops)).

End History.

(** ** Scenarios *)

Module FanOutScenario.
Definition vehicle : DocRef := {| doc_path := "vehicles/v1" |}.
Definition vehicles : CollectionRef := {| collection_path := "vehicles" |}.
Definition collectionSubscriber : Listener := 1.
Definition documentSubscriber : Listener := 2.

Definition s0 : State := snd (setDoc vehicle [("vin", VStr "X")] false initial).
Definition s1 : State := onSnapshot (WCollection vehicles) collectionSubscriber s0.
Definition s2 : State := onSnapshot (WDoc vehicle) documentSubscriber s1.

End FanOutScenario.

Module LazyScenario.
(** operations on and around ["vehicles"], none of which writes into it *)
Definition ops : list Op :=
  [ OpSetDoc {| doc_path := "users/u1" |} [("name", VStr "Alex")] false;
    OpGetDoc {| doc_path := "vehicles/v1" |};
    OpDeleteDoc {| doc_path := "vehicles/v1" |};
    OpOnSnapshot (WCollection {| collection_path := "vehicles" |}) 0;
    OpUpdateDoc {| doc_path := "users/u2" |} [("name", VStr "Priya")] ].
End LazyScenario.

Module OrderScenario.
Definition a : DocRef := {| doc_path := "c/a" |}.
Definition b : DocRef := {| doc_path := "c/b" |}.
(** write [a], write [b], delete [a], write [a] again *)
Definition ops : list Op :=
  [ OpSetDoc a [] false; OpSetDoc b [] false; OpDeleteDoc a; OpSetDoc a [] false ].
Definition randomId : nat -> string := fun _ => "k3x9".
End OrderScenario.

(** ** Well-formed states *)

(** a collection whose ids are distinct and whose documents are well formed *)
Definition docsOk (c : Collection) : Prop :=
  List.NoDup (OMap.keys c) /\ List.Forall (fun e => wfData (snd e)) c.

(** what every state reached from [initial] satisfies: collections are
    proper maps of proper objects, and a registered listener set is a
    non-empty set *)
Definition wfState (s : State) : Prop :=
  (forall p c, store s !! p = Some c -> docsOk c) /\
  (forall p subs, listeners s !! p = Some subs ->
                  subs <> [] /\ List.NoDup subs).

(** ** The seeded identifiers *)

(** no string occurs twice *)
Fixpoint distinct (l : list string) : bool :=
  match l with
  | [] => true
  | x :: r => negb (inb x r) && distinct r
  end.

Definition seededUserIds : list string := map user_id initialUsers.

(** the state after the two reads of a run of the background task *)
Definition afterReads (s : State) : State :=
  putCollection "users" (contents "users" s)
    (putCollection "vehicles" (contents "vehicles" s) s).

Definition seededVehicleIds : list string :=
  map (fun index => "v" ++ decimal (index + 1)) (seq 0 100).

(** * Properties *)

(** ** Insertion-ordered dictionaries *)

Module OMapFacts.
Import OMap.

Section Facts.
Context {A : Type}.
Implicit Types (o : list (string * A)) (k : string) (v : A).

Lemma has_get k o : has k o = true <-> exists v, get k o = Some v.
Proof.
  unfold has. destruct (get k o); split; eauto; intros H;
    try discriminate; destruct H; discriminate.
Qed.

Lemma has_false_get k o : has k o = false <-> get k o = None.
Proof. unfold has. destruct (get k o); split; congruence. Qed.

Lemma has_In_keys k o : has k o = true <-> List.In k (keys o).
Proof.
  unfold has. induction o as [|[k' v'] r IH]; simpl.
  - split; [discriminate | tauto].
  - destruct (String.eqb_spec k k') as [->|Hne].
    + split; auto.
    + rewrite IH. split; [auto | intros [E|H]; [congruence | exact H]].
Qed.

Lemma get_set_eq k v o : get k (set k v o) = Some v.
Proof.
  induction o as [|[k' v'] r IH]; simpl.
  - now rewrite String.eqb_refl.
  - destruct (String.eqb_spec k k') as [->|Hne]; simpl.
    + now rewrite String.eqb_refl.
    + destruct (String.eqb_spec k k'); [congruence | exact IH].
Qed.

Lemma get_set_ne k k' v o : k <> k' -> get k' (set k v o) = get k' o.
Proof.
  intros Hne. induction o as [|[k0 v0] r IH]; simpl.
  - destruct (String.eqb_spec k' k); congruence.
  - destruct (String.eqb_spec k k0) as [->|H0]; simpl.
    + destruct (String.eqb_spec k' k0); congruence.
    + now rewrite IH.
Qed.


(** assignment to a key that is present keeps the enumeration order *)
Lemma keys_set_present k v o : has k o = true -> keys (set k v o) = keys o.
Proof.
  unfold has. induction o as [|[k' v'] r IH]; simpl; [discriminate|].
  destruct (String.eqb_spec k k') as [->|Hne]; simpl; [reflexivity|].
  intros H. now rewrite IH.
Qed.

(** assignment to a new key puts it last *)
Lemma keys_set_absent k v o : has k o = false -> keys (set k v o) = (keys o ++ [k])%list.
Proof.
  unfold has. induction o as [|[k' v'] r IH]; simpl; [reflexivity|].
  destruct (String.eqb_spec k k') as [->|Hne]; simpl; [discriminate|].
  intros H. now rewrite IH.
Qed.

Lemma keys_set k v o :
  keys (set k v o) = if has k o then keys o else (keys o ++ [k])%list.
Proof.
  destruct (has k o) eqn:E; [now apply keys_set_present | now apply keys_set_absent].
Qed.

Lemma NoDup_keys_set k v o : List.NoDup (keys o) -> List.NoDup (keys (set k v o)).
Proof.
  intros H. rewrite keys_set. destruct (has k o) eqn:E; [exact H|].
  apply List.NoDup_app; [exact H | repeat constructor; intros [] | ].
  intros x Hx [<-|[]]. apply has_In_keys in Hx. congruence.
Qed.

Lemma keys_delete_absent k o : has k o = false -> delete k o = o.
Proof.
  unfold has. induction o as [|[k' v'] r IH]; simpl; [reflexivity|].
  destruct (String.eqb_spec k k') as [->|Hne]; simpl; [discriminate|].
  intros H. now rewrite IH.
Qed.

Lemma get_delete_ne k k' o : k <> k' -> get k' (delete k o) = get k' o.
Proof.
  intros Hne. induction o as [|[k0 v0] r IH]; simpl; [reflexivity|].
  destruct (String.eqb_spec k k0) as [->|H0]; simpl.
  - destruct (String.eqb_spec k' k0); congruence.
  - now rewrite IH.
Qed.

Lemma get_delete_eq k o : List.NoDup (keys o) -> get k (delete k o) = None.
Proof.
  induction o as [|[k0 v0] r IH]; simpl; [reflexivity|].
  intros H. apply List.NoDup_cons_iff in H as [Hnin Hnd].
  destruct (String.eqb_spec k k0) as [->|H0]; simpl.
  - apply has_false_get. destruct (has k0 r) eqn:E; [|reflexivity].
    apply has_In_keys in E. contradiction.
  - destruct (String.eqb_spec k k0); [congruence | now apply IH].
Qed.

(** copying properties onto a target: the source wins, key by key *)
Lemma get_assign k (target src : list (string * A)) :
  List.NoDup (keys src) ->
  get k (assign target src) =
    match get k src with Some v => Some v | None => get k target end.
Proof.
  unfold assign. revert target.
  induction src as [|[k0 v0] r IH]; intros target Hnd; simpl; [reflexivity|].
  apply List.NoDup_cons_iff in Hnd as [Hnin Hnd].
  rewrite IH by exact Hnd.
  destruct (String.eqb_spec k k0) as [->|Hne].
  - destruct (get k0 r) eqn:E.
    + exfalso. apply Hnin, has_In_keys, has_get. eauto.
    + apply get_set_eq.
  - destruct (get k r); [reflexivity|]. apply get_set_ne. congruence.
Qed.

Lemma assign_nil_NoDup o : List.NoDup (keys o) -> assign [] o = o.
Proof.
  unfold assign.
  enough (G : forall pre, List.NoDup (keys (pre ++ o)%list) ->
            fold_left (fun next kv => set (fst kv) (snd kv) next) o pre = (pre ++ o)%list).
  { intros H. exact (G [] H). }
  induction o as [|[k0 v0] r IH]; intros pre Hnd; simpl.
  - now rewrite app_nil_r.
  - assert (E : set k0 v0 pre = (pre ++ [(k0, v0)])%list).
    { clear IH. induction pre as [|[k1 v1] p IHp]; simpl; [reflexivity|].
      simpl in Hnd. apply List.NoDup_cons_iff in Hnd as [Hnin Hnd].
      destruct (String.eqb_spec k0 k1) as [->|Hne].
      - exfalso. apply Hnin. unfold keys. rewrite map_app. apply in_or_app.
        right. now left.
      - now rewrite IHp. }
    rewrite E, IH; rewrite <- app_assoc; simpl; [reflexivity | exact Hnd].
Qed.

Lemma get_spread k (a b : list (string * A)) :
  List.NoDup (keys a) -> List.NoDup (keys b) ->
  get k (spread a b) =
    match get k b with Some v => Some v | None => get k a end.
Proof.
  intros Ha Hb. unfold spread. rewrite get_assign by exact Hb.
  now rewrite assign_nil_NoDup.
Qed.

End Facts.
End OMapFacts.

(** ** Values and [clone] *)

Lemma clone_obj_assign fields :
  clone (VObj fields) = VObj (OMap.assign [] (map cloneEntry fields)).
Proof.
  simpl. f_equal. unfold OMap.assign. generalize (@nil (string * value)) as next.
  induction fields as [|[k v] r IH]; intros next; simpl; [reflexivity|].
  apply IH.
Qed.

Lemma cloneData_assign (d : DocData) :
  cloneData d = OMap.assign [] (map cloneEntry d).
Proof. unfold cloneData. now rewrite clone_obj_assign. Qed.

Lemma keys_map_cloneEntry (d : DocData) :
  OMap.keys (map cloneEntry d) = OMap.keys d.
Proof. unfold OMap.keys. rewrite map_map. reflexivity. Qed.

Lemma cloneData_map (d : DocData) :
  List.NoDup (OMap.keys d) -> cloneData d = map cloneEntry d.
Proof.
  intros H. rewrite cloneData_assign. apply OMapFacts.assign_nil_NoDup.
  now rewrite keys_map_cloneEntry.
Qed.


Lemma get_map_cloneEntry k (d : DocData) :
  OMap.get k (map cloneEntry d) = option_map clone (OMap.get k d).
Proof.
  induction d as [|[k' v'] r IH]; simpl; [reflexivity|].
  destruct (String.eqb k k'); [reflexivity | exact IH].
Qed.

(** reading a field of a cloned object gives the clone of the field *)
Lemma get_cloneData k (d : DocData) :
  List.NoDup (OMap.keys d) ->
  OMap.get k (cloneData d) = option_map clone (OMap.get k d).
Proof. intros H. rewrite cloneData_map by exact H. apply get_map_cloneEntry. Qed.

Lemma wf_obj_inv fields :
  wf (VObj fields) ->
  List.NoDup (OMap.keys fields) /\ List.Forall (fun kv => wf (snd kv)) fields.
Proof.
  intros [Hnd Hall]. split; [exact Hnd|]. clear Hnd.
  induction fields as [|kv r IH]; constructor; [apply Hall | apply IH, Hall].
Qed.

Lemma wf_arr_inv items : wf (VArr items) -> List.Forall wf items.
Proof.
  intros Hall. induction items as [|x r IH]; constructor; [apply Hall | apply IH, Hall].
Qed.

(** [clone] rebuilds a well-formed value with the same content *)
Lemma clone_wf v : wf v -> clone v = v.
Proof.
  induction v as [ | | | | | | items IH | fields IH ] using value_nested_ind;
    intros Hwf; try reflexivity.
  - apply wf_arr_inv in Hwf. simpl. f_equal.
    induction items as [|x r IHr]; [reflexivity|].
    inversion IH; inversion Hwf; subst. simpl. f_equal; auto.
  - apply wf_obj_inv in Hwf as [Hnd Hall].
    rewrite clone_obj_assign. f_equal.
    rewrite OMapFacts.assign_nil_NoDup by now rewrite keys_map_cloneEntry.
    clear Hnd. induction fields as [|[k x] r IHr]; [reflexivity|].
    inversion IH; inversion Hall; subst. simpl in *. unfold cloneEntry at 1. simpl.
    f_equal; [f_equal|]; auto.
Qed.

Lemma cloneData_wf (d : DocData) : wfData d -> cloneData d = d.
Proof. intros H. unfold cloneData. now rewrite (clone_wf (VObj d) H). Qed.

(** ** Timestamp *)

Module TimestampFacts.
Import Timestamp.
Local Open Scope Q_scope.






End TimestampFacts.


(** ** The store: how each operation changes the state *)

Section StateFacts.
Implicit Types (s : State) (p q : string) (c : Collection).

Lemma called_nil s : called [] s = s.
Proof. destruct s. unfold called. simpl. now rewrite app_nil_r. Qed.

Lemma called_called cs cs' s : called cs' (called cs s) = called (cs ++ cs')%list s.
Proof. unfold called. simpl. now rewrite app_assoc. Qed.

Lemma notify_called p snapshot s :
  notify p snapshot s = called (deliveries p snapshot s) s.
Proof.
  unfold notify, deliveries, subscribers.
  destruct (listeners s !! p) as [subs|]; [|now rewrite called_nil].
  revert s. induction subs as [|l r IH]; intros s; simpl.
  - now rewrite called_nil.
  - rewrite IH. unfold called, invoke. simpl. now rewrite <- app_assoc.
Qed.

Lemma contents_putCollection_eq p c s : contents p (putCollection p c s) = c.
Proof. unfold contents, putCollection. simpl. now rewrite lookup_insert_eq. Qed.

Lemma contents_putCollection_ne p q c s :
  p <> q -> contents q (putCollection p c s) = contents q s.
Proof.
  intros H. unfold contents, putCollection. simpl. now rewrite lookup_insert_ne.
Qed.

Lemma putCollection_twice p c c' s :
  putCollection p c' (putCollection p c s) = putCollection p c' s.
Proof. unfold putCollection, withStore. simpl. now rewrite insert_insert_eq. Qed.

Lemma ensureCollection_eq p s :
  ensureCollection p s = (contents p s, putCollection p (contents p s) s).
Proof.
  unfold ensureCollection, contents.
  destruct (store s !! p) as [c|] eqn:E; [|reflexivity].
  f_equal. destruct s as [st ls cs n]. unfold putCollection, withStore. simpl in *.
  now rewrite insert_id.
Qed.

Lemma subscribers_putCollection q p c s :
  subscribers q (putCollection p c s) = subscribers q s.
Proof. reflexivity. Qed.

Lemma subscribers_called q cs s : subscribers q (called cs s) = subscribers q s.
Proof. reflexivity. Qed.

Lemma contents_called q cs s : contents q (called cs s) = contents q s.
Proof. reflexivity. Qed.

Lemma putCollection_called p c cs s :
  putCollection p c (called cs s) = called cs (putCollection p c s).
Proof. reflexivity. Qed.

Lemma createCollectionSnapshot_eq p s :
  createCollectionSnapshot p s
  = (snapshotOf p (contents p s), putCollection p (contents p s) s).
Proof.
  unfold snapshotOf, createCollectionSnapshot.
  rewrite !ensureCollection_eq, contents_putCollection_eq. reflexivity.
Qed.

Lemma collectionSnapshotAt_eq p s :
  collectionSnapshotAt p s = snapshotOf p (contents p s).
Proof. unfold collectionSnapshotAt. now rewrite createCollectionSnapshot_eq. Qed.

Lemma emitCollection_eq p s :
  emitCollection p s
  = called (deliveries p (OfCollection (snapshotOf p (contents p s))) s)
           (putCollection p (contents p s) s).
Proof.
  unfold emitCollection. rewrite createCollectionSnapshot_eq, notify_called.
  reflexivity.
Qed.

(** [emitDoc] right after the collection was written *)
Lemma emitDoc_after_put p id c s :
  emitDoc p id (putCollection p c s)
  = called (deliveries (p ++ "/" ++ id)
              (OfDoc (createDocSnapshot p id (OMap.get id c))) s
            ++ deliveries p (OfCollection (snapshotOf p c)) s)%list
           (putCollection p c s).
Proof.
  unfold emitDoc. rewrite ensureCollection_eq, contents_putCollection_eq.
  rewrite putCollection_twice, notify_called, emitCollection_eq.
  rewrite contents_called, contents_putCollection_eq.
  rewrite putCollection_called, putCollection_twice, called_called.
  reflexivity.
Qed.

End StateFacts.

(** *** The document-level mutations in closed form *)

Section Mutations.
Implicit Types (s : State) (data : DocData).

Lemma written_after_ensure p id c s :
  emitDoc p id (putCollection p c (putCollection p (contents p s) s)) = written p id c s.
Proof. rewrite putCollection_twice. apply emitDoc_after_put. Qed.

Lemma setDoc_eq docRef data merge s :
  let p := collectionPath (splitDocPath (doc_path docRef)) in
  let id := docId (splitDocPath (doc_path docRef)) in
  setDoc docRef data merge s
  = (Ok tt, written p id (setDocContent merge id data (contents p s)) s).
Proof.
  unfold setDoc, setDocContent.
  destruct (splitDocPath (doc_path docRef)) as [p id]. cbn [collectionPath docId].
  rewrite ensureCollection_eq.
  destruct (merge && OMap.has id (contents p s)); now rewrite written_after_ensure.
Qed.

Lemma updateDoc_eq docRef data s :
  let p := collectionPath (splitDocPath (doc_path docRef)) in
  let id := docId (splitDocPath (doc_path docRef)) in
  updateDoc docRef data s
  = if OMap.has id (contents p s)
    then (Ok tt, written p id (updateDocContent id data (contents p s)) s)
    else (Throw (notFound (doc_path docRef)), putCollection p (contents p s) s).
Proof.
  unfold updateDoc, updateDocContent.
  destruct (splitDocPath (doc_path docRef)) as [p id]. cbn [collectionPath docId].
  rewrite ensureCollection_eq.
  destruct (OMap.has id (contents p s)); cbn [negb]; [|reflexivity].
  now rewrite written_after_ensure.
Qed.

Lemma deleteDoc_eq docRef s :
  let p := collectionPath (splitDocPath (doc_path docRef)) in
  let id := docId (splitDocPath (doc_path docRef)) in
  deleteDoc docRef s = (Ok tt, written p id (OMap.delete id (contents p s)) s).
Proof.
  unfold deleteDoc.
  destruct (splitDocPath (doc_path docRef)) as [p id]. cbn [collectionPath docId].
  rewrite ensureCollection_eq. now rewrite written_after_ensure.
Qed.

Lemma getDoc_eq docRef s :
  let p := collectionPath (splitDocPath (doc_path docRef)) in
  let id := docId (splitDocPath (doc_path docRef)) in
  getDoc docRef s = (Ok (docSnapshotAt p id s), putCollection p (contents p s) s).
Proof.
  unfold getDoc, docSnapshotAt.
  destruct (splitDocPath (doc_path docRef)) as [p id]. cbn [collectionPath docId].
  now rewrite ensureCollection_eq.
Qed.

Lemma getDocs_eq collectionRef s :
  let p := collection_path collectionRef in
  getDocs collectionRef s
  = (Ok (snapshotOf p (contents p s)), putCollection p (contents p s) s).
Proof. unfold getDocs. now rewrite createCollectionSnapshot_eq. Qed.

Variable randomId : nat -> string.

Lemma addDoc_eq collectionRef data s :
  let p := collection_path collectionRef in
  let id := randomId (drawn s) in
  addDoc randomId collectionRef data s
  = (Ok {| doc_path := p ++ "/" ++ id |},
     written p id (OMap.set id (cloneData data) (contents p s)) (afterDraw s)).
Proof.
  unfold addDoc, generateId. fold (afterDraw s).
  rewrite ensureCollection_eq. now rewrite written_after_ensure.
Qed.

Lemma contents_written_eq p id c s : contents p (written p id c s) = c.
Proof. unfold written. now rewrite contents_called, contents_putCollection_eq. Qed.

Lemma contents_written_ne p q id c s :
  p <> q -> contents q (written p id c s) = contents q s.
Proof.
  intros H. unfold written. now rewrite contents_called, contents_putCollection_ne.
Qed.

Lemma calls_written p id c s :
  calls (written p id c s) = (calls s ++ docDeliveries p id c s)%list.
Proof. reflexivity. Qed.

Lemma listeners_written p id c s : listeners (written p id c s) = listeners s.
Proof. reflexivity. Qed.

End Mutations.

(** ** Claims about single operations *)

(** C1. [updateDoc] fails with the not-found error exactly when the document
    id is absent from its collection, and succeeds when it is present;
    [setDoc] always succeeds and leaves a document at the id (creating it if
    absent); [addDoc] always succeeds, under the identifier it has just
    generated, and returns the reference to it. *)
Theorem update_precondition :
  forall (randomId : nat -> string) (s : State) (docRef : DocRef)
         (collectionRef : CollectionRef) (data : DocData) (merge : bool),
    let p := collectionPath (splitDocPath (doc_path docRef)) in
    let id := docId (splitDocPath (doc_path docRef)) in
    fst (updateDoc docRef data s)
      = (if OMap.has id (contents p s)
         then Ok tt
         else Throw (notFound (doc_path docRef))) /\
    (fst (setDoc docRef data merge s) = Ok tt /\
     OMap.has id (contents p (snd (setDoc docRef data merge s))) = true) /\
    (let q := collection_path collectionRef in
     let fresh := randomId (drawn s) in
     fst (addDoc randomId collectionRef data s)
       = Ok {| doc_path := q ++ "/" ++ fresh |} /\
     OMap.get fresh (contents q (snd (addDoc randomId collectionRef data s)))
       = Some (cloneData data)).
Proof.
  intros randomId s docRef collectionRef data merge p id.
  split; [|split].
  - rewrite updateDoc_eq. fold p id. now destruct (OMap.has id (contents p s)).
  - rewrite setDoc_eq. fold p id. cbn [fst snd]. split; [reflexivity|].
    rewrite contents_written_eq. apply OMapFacts.has_get.
    unfold setDocContent.
    destruct (merge && OMap.has id (contents p s));
      eexists; apply OMapFacts.get_set_eq.
  - intros q fresh. rewrite addDoc_eq. fold q fresh. cbn [fst snd].
    split; [reflexivity|].
    rewrite contents_written_eq. apply OMapFacts.get_set_eq.
Qed.

(** C9. A failing [updateDoc] is atomic: when the id is absent, the call
    throws, no listener is invoked, the registry is untouched and every
    collection has the documents it had; the only change is that the
    addressed collection now exists (empty if it did not exist before). *)
Theorem updateDoc_failure_atomic :
  forall (s : State) (docRef : DocRef) (data : DocData),
    let p := collectionPath (splitDocPath (doc_path docRef)) in
    let id := docId (splitDocPath (doc_path docRef)) in
    let s' := snd (updateDoc docRef data s) in
    OMap.has id (contents p s) = false ->
    fst (updateDoc docRef data s) = Throw (notFound (doc_path docRef)) /\
    calls s' = calls s /\
    listeners s' = listeners s /\
    drawn s' = drawn s /\
    (forall q, contents q s' = contents q s) /\
    (forall q, q <> p -> store s' !! q = store s !! q) /\
    store s' !! p = Some (contents p s).
Proof.
  intros s docRef data p id s' Habsent. subst s'.
  rewrite updateDoc_eq. fold p id. rewrite Habsent. cbn [fst snd].
  repeat split.
  - intros q. destruct (String.eqb_spec p q) as [<-|Hne].
    + apply contents_putCollection_eq.
    + now apply contents_putCollection_ne.
  - intros q Hne. unfold putCollection. simpl. now rewrite lookup_insert_ne.
  - unfold putCollection. simpl. now rewrite lookup_insert_eq.
Qed.

Lemma updateDoc_failure_atomic_witness :
  let s' := snd (updateDoc {| doc_path := "vehicles/v1" |} [("make", VStr "Honda")] initial) in
  fst (updateDoc {| doc_path := "vehicles/v1" |} [("make", VStr "Honda")] initial)
    = Throw "Document vehicles/v1 does not exist" /\
  calls s' = [] /\ contents "vehicles" s' = [].
Proof.
  pose proof (updateDoc_failure_atomic initial {| doc_path := "vehicles/v1" |}
                [("make", VStr "Honda")] eq_refl) as (H1 & H2 & _ & _ & H5 & _).
  split; [exact H1 | split; [exact H2 | exact (H5 "vehicles")]].
Defined.



(** *** Subscriptions *)

Section Subscriptions.
Implicit Types (s : State) (l : Listener).


Lemma register_eq path callback s :
  withListeners
    (fun ls => match ls !! path with
               | Some subs => <[path := LSet.add callback subs]> ls
               | None => ls
               end)
    (match listeners s !! path with
     | Some _ => s
     | None => withListeners (fun ls => <[path := []]> ls) s
     end)
  = registered path callback s.
Proof.
  unfold registered, subscribers, withListeners.
  destruct (listeners s !! path) as [subs|] eqn:E; simpl.
  - now rewrite E.
  - now rewrite lookup_insert_eq, insert_insert_eq.
Qed.

Lemma onSnapshot_collection_eq r callback s :
  let p := collection_path r in
  onSnapshot (WCollection r) callback s
  = called [(callback, OfCollection (snapshotOf p (contents p s)))]
           (putCollection p (contents p s) (registered p callback s)).
Proof.
  unfold onSnapshot. cbn [watched_path]. rewrite register_eq.
  rewrite createCollectionSnapshot_eq. reflexivity.
Qed.

Lemma onSnapshot_doc_eq r callback s :
  let p := collectionPath (splitDocPath (doc_path r)) in
  let id := docId (splitDocPath (doc_path r)) in
  onSnapshot (WDoc r) callback s
  = called [(callback, OfDoc (docSnapshotAt p id s))]
           (putCollection p (contents p s) (registered (doc_path r) callback s)).
Proof.
  unfold onSnapshot. cbn [watched_path]. rewrite register_eq.
  destruct (splitDocPath (doc_path r)) as [p id]. cbn [collectionPath docId].
  rewrite ensureCollection_eq. reflexivity.
Qed.

Lemma contents_put_same q p s :
  contents q (putCollection p (contents p s) s) = contents q s.
Proof.
  destruct (String.eqb_spec p q) as [<-|Hne].
  - apply contents_putCollection_eq.
  - now apply contents_putCollection_ne.
Qed.

Lemma contents_onSnapshot q ref callback s :
  contents q (onSnapshot ref callback s) = contents q s.
Proof.
  destruct ref as [r|r].
  - rewrite onSnapshot_collection_eq. rewrite contents_called.
    exact (contents_put_same q _ (registered _ callback s)).
  - rewrite onSnapshot_doc_eq. rewrite contents_called.
    exact (contents_put_same q _ (registered _ callback s)).
Qed.

Lemma subscribers_registered_eq path callback s :
  subscribers path (registered path callback s)
  = LSet.add callback (subscribers path s).
Proof.
  unfold registered, withListeners. unfold subscribers at 1. simpl.
  now rewrite lookup_insert_eq.
Qed.

Lemma subscribers_registered_ne path q callback s :
  path <> q -> subscribers q (registered path callback s) = subscribers q s.
Proof.
  intros H. unfold registered, withListeners, subscribers. simpl.
  now rewrite lookup_insert_ne.
Qed.

Lemma subscribers_onSnapshot q ref callback s :
  subscribers q (onSnapshot ref callback s)
  = if String.eqb (watched_path ref) q
    then LSet.add callback (subscribers q s)
    else subscribers q s.
Proof.
  assert (G : subscribers q (onSnapshot ref callback s)
              = subscribers q (registered (watched_path ref) callback s)).
  { destruct ref as [r|r].
    - now rewrite onSnapshot_collection_eq.
    - now rewrite onSnapshot_doc_eq. }
  rewrite G. destruct (String.eqb_spec (watched_path ref) q) as [<-|Hne].
  - apply subscribers_registered_eq.
  - now apply subscribers_registered_ne.
Qed.

End Subscriptions.

(** *** Notification fan-out *)





(** ** Reference construction *)





Lemma doc_collection numberToString (c : CollectionRef) (identifier : string) :
  doc numberToString [collectionValue c; VStr identifier]
  = Ok {| doc_path := collection_path c ++ "/" ++ identifier |}.
Proof. reflexivity. Qed.




(** ** Paths *)

Section Paths.
Implicit Types (s p : string) (segments : list string).

Lemma split_not_nil s : split s <> [].
Proof.
  destruct s as [|c r]; simpl; [discriminate|].
  destruct (Ascii.eqb c slash); [discriminate|].
  destruct (split r); discriminate.
Qed.

Lemma split_slashFree s : slashFree s = true -> split s = [s].
Proof.
  induction s as [|c r IH]; simpl; [reflexivity|].
  destruct (Ascii.eqb c slash); simpl; [discriminate|].
  intros H. now rewrite IH.
Qed.

(** splitting distributes over a separator *)
Lemma split_app_slash a b : split (a ++ "/" ++ b) = (split a ++ split b)%list.
Proof.
  induction a as [|c r IH]; simpl; [reflexivity|].
  destruct (Ascii.eqb c slash); simpl.
  - now rewrite IH.
  - simpl in IH. rewrite IH.
    destruct (split r) as [|h t] eqn:E; [now apply split_not_nil in E|].
    reflexivity.
Qed.

Lemma split_join segments :
  segments <> [] ->
  List.Forall (fun x => slashFree x = true) segments ->
  split (join segments) = segments.
Proof.
  unfold join. induction segments as [|x r IH]; [congruence|].
  intros _ Hall. inversion Hall as [|? ? Hx Hr]; subst.
  destruct r as [|y r'].
  - simpl. now apply split_slashFree.
  - change (joinWith "/" (x :: y :: r')) with (x ++ "/" ++ joinWith "/" (y :: r')).
    rewrite split_app_slash, split_slashFree by exact Hx.
    rewrite IH; [reflexivity | discriminate | exact Hr].
Qed.

Lemma split_all_slashFree s :
  List.Forall (fun x => slashFree x = true) (split s).
Proof.
  induction s as [|c r IH]; simpl.
  - repeat constructor.
  - destruct (Ascii.eqb c slash) eqn:E.
    + constructor; [reflexivity | exact IH].
    + destruct (split r) as [|h t]; [repeat constructor; simpl; now rewrite E|].
      inversion IH; subst. constructor; [simpl; now rewrite E | assumption].
Qed.

Lemma join_split s : join (split s) = s.
Proof.
  unfold join. induction s as [|c r IH]; simpl; [reflexivity|].
  destruct (Ascii.eqb_spec c slash) as [->|Hne].
  - destruct (split r) as [|h t] eqn:E; [now apply split_not_nil in E|].
    change (joinWith "/" ("" :: h :: t)) with ("/" ++ joinWith "/" (h :: t)).
    now rewrite IH.
  - destruct (split r) as [|h t] eqn:E; [now apply split_not_nil in E|].
    destruct t as [|h' t'].
    + simpl in *. now rewrite IH.
    + change (joinWith "/" (String c h :: h' :: t'))
        with (String c (h ++ "/" ++ joinWith "/" (h' :: t'))).
      change (joinWith "/" (h :: h' :: t'))
        with (h ++ "/" ++ joinWith "/" (h' :: t')) in IH.
      now rewrite IH.
Qed.

Lemma split_leading_slash p : split ("/" ++ p) = "" :: split p.
Proof. reflexivity. Qed.

Lemma split_trailing_slash p : split (p ++ "/") = (split p ++ [""])%list.
Proof. exact (split_app_slash p ""). Qed.

Lemma splitDocPath_leading_slash p : splitDocPath ("/" ++ p) = splitDocPath p.
Proof. unfold splitDocPath. now rewrite split_leading_slash. Qed.

Lemma splitDocPath_trailing_slash p : splitDocPath (p ++ "/") = splitDocPath p.
Proof.
  unfold splitDocPath. rewrite split_trailing_slash, List.filter_app.
  simpl. now rewrite app_nil_r.
Qed.

Lemma last_filter_truthy segments :
  List.Forall (fun x => slashFree x = true) segments ->
  let parts := List.filter truthy segments in
  slashFree (List.last parts "") = true /\
  (parts <> [] -> truthy (List.last parts "") = true).
Proof.
  intros Hall parts. subst parts.
  induction segments as [|x r IH]; simpl.
  - split; [reflexivity | congruence].
  - inversion Hall as [|? ? Hx Hr]; subst. specialize (IH Hr) as [IH1 IH2].
    destruct (truthy x) eqn:Ex; [|split; assumption].
    destruct (List.filter truthy r) as [|y t] eqn:Ef.
    + simpl. split; [exact Hx | intros _; exact Ex].
    + change (List.last (x :: y :: t) "") with (List.last (y :: t) "").
      split; [exact IH1 | intros _; apply IH2; discriminate].
Qed.

End Paths.

(** C6. A path is its ["/"]-separated segments.  Splitting it drops the empty
    segments, takes the last remaining one as the document id and joins the
    others with ["/"] as the collection path.  The id contains no ["/"], and
    it is non-empty as soon as the path has a non-empty segment.  Hence a
    leading or a trailing ["/"] changes nothing, and [getDoc], [setDoc],
    [deleteDoc] and [updateDoc] through such a path act on the same document
    as through the path without it. *)
Theorem splitDocPath_segments :
  (forall segments : list string,
      segments <> [] ->
      List.Forall (fun x => slashFree x = true) segments ->
      let parts := List.filter truthy segments in
      splitDocPath (join segments)
        = {| collectionPath := join (List.removelast parts);
             docId := List.last parts "" |} /\
      slashFree (List.last parts "") = true /\
      (parts <> [] -> List.last parts "" <> "")) /\
  (forall path : string,
      split path <> [] /\
      List.Forall (fun x => slashFree x = true) (split path) /\
      join (split path) = path) /\
  (forall (path : string) (s : State) (data : DocData) (merge : bool),
      splitDocPath ("/" ++ path) = splitDocPath path /\
      splitDocPath (path ++ "/") = splitDocPath path /\
      getDoc {| doc_path := "/" ++ path |} s = getDoc {| doc_path := path |} s /\
      getDoc {| doc_path := path ++ "/" |} s = getDoc {| doc_path := path |} s /\
      setDoc {| doc_path := "/" ++ path |} data merge s
        = setDoc {| doc_path := path |} data merge s /\
      setDoc {| doc_path := path ++ "/" |} data merge s
        = setDoc {| doc_path := path |} data merge s /\
      deleteDoc {| doc_path := "/" ++ path |} s = deleteDoc {| doc_path := path |} s /\
      deleteDoc {| doc_path := path ++ "/" |} s = deleteDoc {| doc_path := path |} s /\
      snd (updateDoc {| doc_path := "/" ++ path |} data s)
        = snd (updateDoc {| doc_path := path |} data s) /\
      snd (updateDoc {| doc_path := path ++ "/" |} data s)
        = snd (updateDoc {| doc_path := path |} data s)).
Proof.
  split; [|split].
  - intros segments Hne Hall parts. subst parts.
    split; [|split].
    + unfold splitDocPath. now rewrite split_join.
    + now apply last_filter_truthy.
    + intros Hparts E.
      destruct (last_filter_truthy segments Hall) as [_ H].
      specialize (H Hparts). rewrite E in H. discriminate.
  - intros path. split; [apply split_not_nil|].
    split; [apply split_all_slashFree | apply join_split].
  - intros path s data merge.
    assert (H1 := splitDocPath_leading_slash path).
    assert (H2 := splitDocPath_trailing_slash path).
    rewrite !updateDoc_eq.
    unfold getDoc, setDoc, deleteDoc. cbn [doc_path]. rewrite H1, H2.
    repeat split; try reflexivity;
      destruct (OMap.has _ (contents _ s)); reflexivity.
Qed.

Lemma splitDocPath_segments_witness :
  splitDocPath "/vehicles//v1/"
  = {| collectionPath := "vehicles"; docId := "v1" |}.
Proof.
  assert (Hall : List.Forall (fun x => slashFree x = true)
                   [""; "vehicles"; ""; "v1"; ""]).
  { repeat constructor. }
  exact (proj1 (proj1 splitDocPath_segments [""; "vehicles"; ""; "v1"; ""]
                  ltac:(discriminate) Hall)).
Defined.

(** ** Bulk replacement *)

Section Replace.
Variable randomId : nat -> string.
Variable idField : string.

Lemma NoDup_keys_delete {A} k (o : list (string * A)) :
  List.NoDup (OMap.keys o) -> List.NoDup (OMap.keys (OMap.delete k o)).
Proof.
  induction o as [|[k' v'] r IH]; simpl; [auto|].
  intros H. apply List.NoDup_cons_iff in H as [Hnin Hnd].
  destruct (String.eqb_spec k k') as [->|Hne]; [exact Hnd|].
  simpl. constructor; [|now apply IH].
  intros Hin. apply Hnin. apply OMapFacts.has_In_keys.
  apply OMapFacts.has_In_keys in Hin. apply OMapFacts.has_get in Hin as [v Hv].
  rewrite OMapFacts.get_delete_ne in Hv by exact Hne.
  apply OMapFacts.has_get. eauto.
Qed.

(** the fields [replaceItem] stores for a well-formed item *)
Lemma stripped_eq (item : DocData) :
  List.NoDup (OMap.keys item) ->
  (if OMap.has idField (OMap.copy item)
   then OMap.delete idField (OMap.copy item)
   else OMap.copy item)
  = OMap.delete idField item.
Proof.
  intros H. unfold OMap.copy. rewrite OMapFacts.assign_nil_NoDup by exact H.
  destruct (OMap.has idField item) eqn:E; [reflexivity|].
  symmetry. now apply OMapFacts.keys_delete_absent.
Qed.

Lemma replaceItems_eq (items : list DocData) (c : Collection) (s : State) :
  List.Forall (typedItem idField) items ->
  List.Forall (fun item => List.NoDup (OMap.keys item)) items ->
  fold_left (replaceItem randomId idField) items (Some (c, s))
  = Some (OMap.assign c (planned randomId idField (drawn s) items),
          withDrawn (drawnAfter idField (drawn s) items) s).
Proof.
  revert c s. induction items as [|item r IH]; intros c s Hty Hnd.
  - simpl. destruct s; reflexivity.
  - inversion Hty as [|? ? Hi Hr]; inversion Hnd as [|? ? Hni Hnr]; subst.
    cbn [fold_left]. unfold replaceItem at 2. rewrite (stripped_eq item Hni).
    unfold typedItem in Hi. cbn [planned drawnAfter].
    destruct (OMap.get idField item) as [[ | | | |id| | | ]|]; try contradiction;
      unfold generateId; rewrite (IH _ _ Hr Hnr); reflexivity.
Qed.



Lemma replaceCollection_eq (collectionPath : string) (items : list DocData)
    (idFieldOption : option string) (s : State) :
  idField = match idFieldOption with Some f => f | None => "id" end ->
  List.Forall (typedItem idField) items ->
  List.Forall (fun item => List.NoDup (OMap.keys item)) items ->
  let c := OMap.assign [] (planned randomId idField (drawn s) items) in
  replaceCollection randomId collectionPath items idFieldOption s
  = Some (called (deliveries collectionPath
                    (OfCollection (snapshotOf collectionPath c)) s)
            (putCollection collectionPath c
               (withDrawn (drawnAfter idField (drawn s) items) s))).
Proof.
  intros Hid Hty Hnd c. unfold replaceCollection. rewrite <- Hid.
  rewrite ensureCollection_eq, contents_putCollection_eq, putCollection_twice.
  rewrite (replaceItems_eq items [] _ Hty Hnd). cbn [drawn putCollection withStore].
  fold c. rewrite emitCollection_eq, contents_putCollection_eq.
  f_equal. unfold putCollection, withStore, withDrawn, called, deliveries, subscribers.
  cbn. now rewrite !insert_insert_eq.
Qed.

End Replace.




(** ** Histories of operations *)

Section HistoryFacts.
Variable randomId : nat -> string.
Implicit Types (s : State) (p : string) (c : Collection) (ids : list string).

Lemma has_inb {A} id (o : list (string * A)) :
  OMap.has id o = inb id (OMap.keys o).
Proof.
  unfold OMap.has, inb. induction o as [|[k v] r IH]; simpl; [reflexivity|].
  destruct (String.eqb id k); [reflexivity | exact IH].
Qed.

Lemma keys_set_applyKey {A} id (v : A) (o : list (string * A)) :
  OMap.keys (OMap.set id v o) = applyKey (OMap.keys o) (Insert id).
Proof. rewrite OMapFacts.keys_set, has_inb. reflexivity. Qed.

Lemma keys_delete_applyKey {A} id (o : list (string * A)) :
  OMap.keys (OMap.delete id o) = applyKey (OMap.keys o) (Remove id).
Proof.
  simpl. induction o as [|[k v] r IH]; simpl; [reflexivity|].
  destruct (String.eqb id k); simpl; [reflexivity | now rewrite IH].
Qed.

Lemma keys_assign_applyKey {A} (target src : list (string * A)) :
  OMap.keys (OMap.assign target src)
  = fold_left applyKey (map Insert (OMap.keys src)) (OMap.keys target).
Proof.
  unfold OMap.assign. revert target.
  induction src as [|[k v] r IH]; intros target; simpl; [reflexivity|].
  rewrite IH, keys_set_applyKey. reflexivity.
Qed.

Lemma snapshotIds_keys p s : snapshotIds p s = OMap.keys (contents p s).
Proof.
  unfold snapshotIds. rewrite collectionSnapshotAt_eq.
  unfold snapshotOf, createCollectionSnapshot.
  rewrite ensureCollection_eq, contents_putCollection_eq. cbn [fst docs].
  rewrite map_map. reflexivity.
Qed.

Lemma contents_afterDraw p s : contents p (afterDraw s) = contents p s.
Proof. reflexivity. Qed.

Lemma contents_unsubscribe p ref callback s :
  contents p (unsubscribe ref callback s) = contents p s.
Proof.
  unfold unsubscribe. destruct (listeners s !! watched_path ref); [|reflexivity].
  destruct (length (LSet.delete callback l) =? 0)%nat; reflexivity.
Qed.

(** the contents of [p] after a write of [c] into [q] *)
Lemma contents_written p q id c s :
  contents p (written q id c s) = if String.eqb q p then c else contents p s.
Proof.
  destruct (String.eqb_spec q p) as [->|Hne].
  - apply contents_written_eq.
  - now apply contents_written_ne.
Qed.

(** one operation, seen from the identifier sequence of collection [p] *)
Lemma step_keys p s op :
  typedOp op ->
  exists s',
    step randomId s op = Some s' /\
    OMap.keys (contents p s')
    = fold_left applyKey (effect randomId p s op) (OMap.keys (contents p s)).
Proof.
  intros Hty. destruct op as [r|r|r data|r data merge|r data|r|ref l|ref l|q items f];
    cbn [step effect].
  - eexists; split; [reflexivity|]. rewrite getDocs_eq. cbn [snd fold_left].
    now rewrite contents_put_same.
  - eexists; split; [reflexivity|]. rewrite getDoc_eq. cbn [snd fold_left].
    now rewrite contents_put_same.
  - eexists; split; [reflexivity|]. rewrite addDoc_eq. cbn [snd].
    rewrite contents_written, contents_afterDraw.
    destruct (String.eqb_spec (collection_path r) p) as [->|Hne]; [|reflexivity].
    cbn [fold_left]. apply keys_set_applyKey.
  - eexists; split; [reflexivity|]. rewrite setDoc_eq. cbn [snd].
    rewrite contents_written.
    destruct (String.eqb_spec (collectionPath (splitDocPath (doc_path r))) p)
      as [->|Hne]; [|reflexivity].
    cbn [fold_left]. unfold setDocContent.
    destruct (merge && OMap.has _ (contents p s)); apply keys_set_applyKey.
  - eexists; split; [reflexivity|]. rewrite updateDoc_eq.
    destruct (String.eqb_spec (collectionPath (splitDocPath (doc_path r))) p)
      as [->|Hne]; cbn [andb].
    + destruct (OMap.has _ (contents p s)) eqn:Hhas; cbn [snd fold_left].
      * rewrite contents_written_eq. apply keys_set_applyKey.
      * now rewrite contents_put_same.
    + destruct (OMap.has _ (contents _ s)); cbn [snd fold_left].
      * now rewrite contents_written_ne.
      * now rewrite contents_put_same.
  - eexists; split; [reflexivity|]. rewrite deleteDoc_eq. cbn [snd].
    rewrite contents_written.
    destruct (String.eqb_spec (collectionPath (splitDocPath (doc_path r))) p)
      as [->|Hne]; [|reflexivity].
    cbn [fold_left]. apply keys_delete_applyKey.
  - eexists; split; [reflexivity|]. cbn [fold_left]. now rewrite contents_onSnapshot.
  - eexists; split; [reflexivity|]. cbn [fold_left]. now rewrite contents_unsubscribe.
  - destruct Hty as [Hty Hnd]. eexists. split.
    + apply (replaceCollection_eq randomId _ q items f s eq_refl Hty Hnd).
    + rewrite contents_called.
      destruct (String.eqb_spec q p) as [->|Hne].
      * rewrite contents_putCollection_eq. cbn [fold_left applyKey].
        apply keys_assign_applyKey.
      * now rewrite contents_putCollection_ne.
Qed.

(** a history, seen from the identifier sequence of collection [p] *)
Lemma run_keys p ops s :
  List.Forall typedOp ops ->
  exists s',
    run randomId ops s = Some s' /\
    OMap.keys (contents p s')
    = fold_left applyKey (events randomId p s ops) (OMap.keys (contents p s)).
Proof.
  revert s. induction ops as [|op r IH]; intros s Hty.
  - exists s. split; reflexivity.
  - inversion Hty as [|? ? Hop Hr]; subst.
    destruct (step_keys p s op Hop) as (s1 & Hstep & Hkeys).
    destruct (IH s1 Hr) as (s' & Hrun & Hkeys').
    exists s'. cbn [run events]. rewrite Hstep. split; [exact Hrun|].
    now rewrite fold_left_app, <- Hkeys.
Qed.

Lemma fold_inserts ids acc :
  fold_left applyKey (map Insert ids) acc
  = fold_left (fun a id => if inb id a then a else (a ++ [id])%list) ids acc.
Proof.
  revert acc. induction ids as [|x r IH]; intros acc; simpl; [reflexivity|].
  apply IH.
Qed.

Lemma inserts_only (es : list KeyEvent) :
  List.Forall isInsert es -> es = map Insert (flat_map insertedId es).
Proof.
  induction es as [|e r IH]; [reflexivity|].
  intros H. inversion H as [|? ? He Hr]; subst.
  destruct e; try contradiction. simpl. now rewrite <- IH.
Qed.

(** an operation that puts no document into [p] leaves it empty *)
Lemma step_stays_empty p s op :
  typedOp op -> neverWrites p op -> contents p s = [] ->
  exists s', step randomId s op = Some s' /\ contents p s' = [].
Proof.
  intros Hty Hnw Hempty.
  destruct (step_keys p s op Hty) as (s' & Hstep & Hkeys).
  exists s'. split; [exact Hstep|].
  enough (E : fold_left applyKey (effect randomId p s op) (OMap.keys (contents p s)) = []).
  { rewrite E in Hkeys. destruct (contents p s'); [reflexivity | discriminate]. }
  rewrite Hempty. unfold neverWrites in Hnw.
  destruct op as [r|r|r data|r data merge|r data|r|ref l|ref l|q items f];
    cbn [populates effect] in *; try reflexivity.
  - destruct (String.eqb_spec (collection_path r) p); [congruence | reflexivity].
  - destruct (String.eqb_spec (collectionPath (splitDocPath (doc_path r))) p);
      [congruence | reflexivity].
  - rewrite Hempty. cbn [OMap.has OMap.get]. now rewrite andb_false_r.
  - destruct (String.eqb (collectionPath (splitDocPath (doc_path r))) p); reflexivity.
  - destruct (String.eqb_spec q p); [congruence | reflexivity].
Qed.

Lemma run_stays_empty p ops s :
  List.Forall typedOp ops -> List.Forall (neverWrites p) ops ->
  contents p s = [] ->
  exists s', run randomId ops s = Some s' /\ contents p s' = [].
Proof.
  revert s. induction ops as [|op r IH]; intros s Hty Hnw Hempty.
  - exists s. split; [reflexivity | exact Hempty].
  - inversion Hty as [|? ? Hop Hr]; inversion Hnw as [|? ? Hop' Hr']; subst.
    destruct (step_stays_empty p s op Hop Hop' Hempty) as (s1 & Hstep & H1).
    destruct (IH s1 Hr Hr' H1) as (s' & Hrun & H').
    exists s'. cbn [run]. rewrite Hstep. split; [exact Hrun | exact H'].
Qed.

End HistoryFacts.

(** C8. After any history of operations none of which writes into the
    collection path [p] (no [addDoc], [setDoc] or [replaceCollection] on it;
    an [updateDoc] there can only fail), reading the collection does not fail
    and returns the
    empty snapshot ([docs = []], [size = 0], [empty = true]); the read
    creates the collection, empty, if it was absent, and changes the
    documents of no collection.  A collection that is absent from the store
    reads exactly as one that is present and empty. *)
Theorem lazy_collection :
  forall (randomId : nat -> string) (ops : list Op) (p : string),
    let emptySnapshot :=
      {| docs := []; size := 0; empty := true;
         coll_ref := {| collection_path := p |} |} in
    List.Forall typedOp ops ->
    List.Forall (neverWrites p) ops ->
    (exists s,
        run randomId ops initial = Some s /\
        fst (getDocs {| collection_path := p |} s) = Ok emptySnapshot /\
        store (snd (getDocs {| collection_path := p |} s)) !! p = Some [] /\
        (forall q, contents q (snd (getDocs {| collection_path := p |} s))
                   = contents q s)) /\
    (forall s : State,
        store s !! p = None \/ store s !! p = Some [] ->
        fst (getDocs {| collection_path := p |} s) = Ok emptySnapshot).
Proof.
  intros randomId ops p emptySnapshot Hty Hnw.
  assert (Hempty : forall s, contents p s = [] ->
            fst (getDocs {| collection_path := p |} s) = Ok emptySnapshot).
  { intros s Hc. rewrite getDocs_eq. cbn [fst collection_path]. rewrite Hc.
    unfold snapshotOf, createCollectionSnapshot.
    rewrite ensureCollection_eq, contents_putCollection_eq. reflexivity. }
  split.
  - destruct (run_stays_empty randomId p ops initial Hty Hnw eq_refl)
      as (s & Hrun & Hc).
    exists s. split; [exact Hrun|]. split; [now apply Hempty|].
    rewrite getDocs_eq. cbn [snd collection_path]. split.
    + rewrite Hc. unfold putCollection. simpl. apply lookup_insert_eq.
    + intros q. apply contents_put_same.
  - intros s Hs. apply Hempty. unfold contents. destruct Hs as [E|E]; now rewrite E.
Qed.

Lemma lazy_collection_witness :
  exists s,
    run (fun _ => "k3x9") LazyScenario.ops initial = Some s /\
    fst (getDocs {| collection_path := "vehicles" |} s)
    = Ok {| docs := []; size := 0; empty := true;
            coll_ref := {| collection_path := "vehicles" |} |}.
Proof.
  assert (Hty : List.Forall typedOp LazyScenario.ops).
  { repeat constructor. }
  assert (Hnw : List.Forall (neverWrites "vehicles") LazyScenario.ops).
  { repeat constructor; unfold neverWrites; simpl; discriminate. }
  destruct (lazy_collection (fun _ => "k3x9") LazyScenario.ops "vehicles" Hty Hnw)
    as [(s & Hrun & Hread & _) _].
  exists s. split; [exact Hrun | exact Hread].
Defined.

(** C10, as stated, fails: [a] was first written before [b], yet after [a] is
    deleted and written again the snapshot lists [b] before [a]. *)
Lemma first_insertion_order_counterexample :
  firstWritten OrderScenario.randomId "c" initial OrderScenario.ops = ["a"; "b"] /\
  option_map (snapshotIds "c") (run OrderScenario.randomId OrderScenario.ops initial)
    = Some ["b"; "a"].
Proof. split; vm_compute; reflexivity. Qed.

(** C10, amended. The docs of a collection snapshot are listed in the order
    of insertion into the collection: writing an identifier that is not
    present appends it, writing one that is present leaves the sequence as it
    is, [deleteDoc] removes it, and [replaceCollection] empties the sequence
    and inserts its items in order.  So after a history without [deleteDoc]
    or [replaceCollection] on the collection the order is that in which the
    identifiers were first written, and [setDoc] or [updateDoc] on an
    existing document keeps its position (on an absent one [setDoc] appends
    it). *)
Theorem snapshot_insertion_order :
  forall (randomId : nat -> string) (ops : list Op) (p : string),
    List.Forall typedOp ops ->
    exists s,
      run randomId ops initial = Some s /\
      snapshotIds p s = fold_left applyKey (events randomId p initial ops) [] /\
      (List.Forall isInsert (events randomId p initial ops) ->
       snapshotIds p s = firstWritten randomId p initial ops) /\
      (forall (r : DocRef) (data : DocData) (merge : bool),
          collectionPath (splitDocPath (doc_path r)) = p ->
          let id := docId (splitDocPath (doc_path r)) in
          (OMap.has id (contents p s) = true ->
           snapshotIds p (snd (setDoc r data merge s)) = snapshotIds p s /\
           snapshotIds p (snd (updateDoc r data s)) = snapshotIds p s) /\
          (OMap.has id (contents p s) = false ->
           snapshotIds p (snd (setDoc r data merge s))
           = (snapshotIds p s ++ [id])%list)).
Proof.
  intros randomId ops p Hty.
  destruct (run_keys randomId p ops initial Hty) as (s & Hrun & Hkeys).
  change (OMap.keys (contents p initial)) with (@nil string) in Hkeys.
  exists s. split; [exact Hrun|]. rewrite snapshotIds_keys.
  split; [exact Hkeys|]. split.
  - intros Hins. rewrite Hkeys. unfold firstWritten, firstOccurrences.
    rewrite (inserts_only _ Hins) at 1. apply fold_inserts.
  - intros r data merge Hp id. rewrite !snapshotIds_keys.
    rewrite setDoc_eq, updateDoc_eq. rewrite Hp. fold id. cbn [snd].
    split.
    + intros Hhas. rewrite Hhas. cbn [snd]. rewrite !contents_written_eq.
      unfold setDocContent, updateDocContent. rewrite Hhas.
      destruct merge; cbn [andb]; split; now apply OMapFacts.keys_set_present.
    + intros Hhas. rewrite contents_written_eq. unfold setDocContent.
      rewrite Hhas, andb_false_r. now apply OMapFacts.keys_set_absent.
Qed.

Lemma snapshot_insertion_order_witness :
  exists s,
    run OrderScenario.randomId
        [ OpSetDoc OrderScenario.b [] false; OpSetDoc OrderScenario.a [] false;
          OpSetDoc OrderScenario.b [("x", VNull)] true ] initial = Some s /\
    snapshotIds "c" s = ["b"; "a"].
Proof.
  assert (Hty : List.Forall typedOp
            [ OpSetDoc OrderScenario.b [] false; OpSetDoc OrderScenario.a [] false;
              OpSetDoc OrderScenario.b [("x", VNull)] true ]).
  { repeat constructor. }
  destruct (snapshot_insertion_order OrderScenario.randomId _ "c" Hty)
    as (s & Hrun & _ & Hfirst & _).
  exists s. split; [exact Hrun|].
  rewrite Hfirst; [vm_compute; reflexivity|].
  vm_compute. repeat constructor.
Defined.

(** * Further properties of the store *)

(** ** Well-formedness is kept *)

Section WellFormed.
Implicit Types (s : State) (c : Collection) (d : DocData).

Lemma wf_obj_intro (fields : list (string * value)) :
  List.NoDup (OMap.keys fields) ->
  List.Forall (fun kv => wf (snd kv)) fields ->
  wf (VObj fields).
Proof.
  intros Hnd Hall. split; [exact Hnd|]. clear Hnd.
  induction Hall as [|kv r Hkv Hr IH]; [exact I | split; assumption].
Qed.

Lemma wf_arr_intro (items : list value) : List.Forall wf items -> wf (VArr items).
Proof.
  intros Hall. induction Hall as [|x r Hx Hr IH]; [exact I | split; assumption].
Qed.

Lemma Forall_values_set {A} (P : A -> Prop) k (v : A) (o : list (string * A)) :
  P v -> List.Forall (fun e => P (snd e)) o ->
  List.Forall (fun e => P (snd e)) (OMap.set k v o).
Proof.
  intros Hv Hall. induction Hall as [|[k' v'] r Hkv Hr IH]; simpl.
  - repeat constructor. exact Hv.
  - destruct (String.eqb k k'); constructor; auto.
Qed.

Lemma Forall_values_delete {A} (P : A -> Prop) k (o : list (string * A)) :
  List.Forall (fun e => P (snd e)) o ->
  List.Forall (fun e => P (snd e)) (OMap.delete k o).
Proof.
  intros Hall. induction Hall as [|[k' v'] r Hkv Hr IH]; simpl; [constructor|].
  destruct (String.eqb k k'); [exact Hr | constructor; auto].
Qed.

Lemma Forall_values_assign {A} (P : A -> Prop) (target src : list (string * A)) :
  List.Forall (fun e => P (snd e)) target ->
  List.Forall (fun e => P (snd e)) src ->
  List.Forall (fun e => P (snd e)) (OMap.assign target src).
Proof.
  unfold OMap.assign. intros Ht Hs. revert target Ht.
  induction Hs as [|[k v] r Hkv Hr IH]; intros target Ht; simpl; [exact Ht|].
  apply IH. now apply Forall_values_set.
Qed.

Lemma NoDup_keys_assign {A} (target src : list (string * A)) :
  List.NoDup (OMap.keys target) -> List.NoDup (OMap.keys (OMap.assign target src)).
Proof.
  unfold OMap.assign. revert target.
  induction src as [|[k v] r IH]; intros target Ht; simpl; [exact Ht|].
  apply IH. now apply OMapFacts.NoDup_keys_set.
Qed.

(** whatever it is given, [clone] returns a well-formed value *)
Lemma wf_clone (v : value) : wf (clone v).
Proof.
  induction v as [ | | | | | | items IH | fields IH ] using value_nested_ind;
    try exact I.
  - simpl. apply wf_arr_intro. induction IH; constructor; auto.
  - rewrite clone_obj_assign. apply wf_obj_intro.
    + apply NoDup_keys_assign. constructor.
    + apply Forall_values_assign; [constructor|].
      induction IH as [|[k x] r Hx Hr IHr]; constructor; auto.
Qed.

Lemma wfData_cloneData d : wfData (cloneData d).
Proof.
  unfold wfData, cloneData. pose proof (wf_clone (VObj d)) as H.
  rewrite clone_obj_assign in *. exact H.
Qed.

Lemma wfData_spread (a b : DocData) : wfData a -> wfData b -> wfData (OMap.spread a b).
Proof.
  intros Ha Hb. apply wf_obj_inv in Ha as [_ Ha]. apply wf_obj_inv in Hb as [_ Hb].
  apply wf_obj_intro.
  - unfold OMap.spread. apply NoDup_keys_assign, NoDup_keys_assign. constructor.
  - unfold OMap.spread. apply Forall_values_assign; [|exact Hb].
    apply Forall_values_assign; [constructor | exact Ha].
Qed.

Lemma wfData_nil : wfData [].
Proof. split; [constructor | exact I]. Qed.

Lemma docsOk_nil : docsOk [].
Proof. split; constructor. Qed.

Lemma docsOk_set id d c : wfData d -> docsOk c -> docsOk (OMap.set id d c).
Proof.
  intros Hd [Hnd Hall]. split.
  - now apply OMapFacts.NoDup_keys_set.
  - now apply (Forall_values_set wfData).
Qed.

Lemma docsOk_delete id c : docsOk c -> docsOk (OMap.delete id c).
Proof.
  intros [Hnd Hall]. split.
  - now apply NoDup_keys_delete.
  - now apply (Forall_values_delete wfData).
Qed.

Lemma docsOk_get id d c : docsOk c -> OMap.get id c = Some d -> wfData d.
Proof.
  intros [_ Hall] Hget. induction Hall as [|[k v] r Hkv Hr IH]; [discriminate|].
  simpl in Hget. destruct (String.eqb id k); [|now apply IH].
  injection Hget as <-. exact Hkv.
Qed.

Lemma wfState_initial : wfState initial.
Proof.
  split; intros p x H; cbn in H; rewrite lookup_empty in H; discriminate.
Qed.

Lemma wfState_contents p s : wfState s -> docsOk (contents p s).
Proof.
  intros [Hst _]. unfold contents.
  destruct (store s !! p) as [c|] eqn:E; [exact (Hst p c E) | apply docsOk_nil].
Qed.

Lemma wfState_putCollection p c s :
  docsOk c -> wfState s -> wfState (putCollection p c s).
Proof.
  intros Hc [Hst Hls]. split; [|exact Hls].
  intros q c' H. cbn in H. destruct (decide (p = q)) as [->|Hne].
  - rewrite lookup_insert_eq in H. now injection H as <-.
  - rewrite lookup_insert_ne in H by exact Hne. exact (Hst q c' H).
Qed.

Lemma wfState_called cs s : wfState s -> wfState (called cs s).
Proof. intros H. exact H. Qed.

Lemma wfState_written p id c s : docsOk c -> wfState s -> wfState (written p id c s).
Proof.
  intros Hc Hs. unfold written. apply wfState_called. now apply wfState_putCollection.
Qed.

Lemma wfState_withDrawn n s : wfState s -> wfState (withDrawn n s).
Proof. intros H. exact H. Qed.

Lemma NoDup_LSet_add l (subs : list Listener) :
  List.NoDup subs -> List.NoDup (LSet.add l subs).
Proof.
  intros H. unfold LSet.add, LSet.mem. destruct (existsb (Nat.eqb l) subs) eqn:E; [exact H|].
  apply List.NoDup_app; [exact H | repeat constructor; intros [] |].
  intros x Hx [<-|[]].
  assert (existsb (Nat.eqb l) subs = true); [|congruence].
  apply existsb_exists. exists l. split; [exact Hx | apply Nat.eqb_refl].
Qed.

Lemma LSet_add_not_nil l (subs : list Listener) : LSet.add l subs <> [].
Proof.
  unfold LSet.add. destruct (LSet.mem l subs) eqn:E.
  - destruct subs; [discriminate E | discriminate].
  - destruct subs; discriminate.
Qed.

Lemma wfState_registered path l s : wfState s -> wfState (registered path l s).
Proof.
  intros [Hst Hls]. split; [exact Hst|].
  intros q subs H. cbn in H. destruct (decide (path = q)) as [->|Hne].
  - rewrite lookup_insert_eq in H. injection H as <-.
    split; [apply LSet_add_not_nil|]. apply NoDup_LSet_add.
    unfold subscribers. destruct (listeners s !! q) as [subs|] eqn:E.
    + exact (proj2 (Hls q subs E)).
    + constructor.
  - rewrite lookup_insert_ne in H by exact Hne. exact (Hls q subs H).
Qed.

Lemma wfState_onSnapshot ref l s : wfState s -> wfState (onSnapshot ref l s).
Proof.
  intros Hs. destruct ref as [r|r].
  - rewrite onSnapshot_collection_eq. apply wfState_called, wfState_putCollection.
    + apply wfState_contents. exact Hs.
    + now apply wfState_registered.
  - rewrite onSnapshot_doc_eq. apply wfState_called, wfState_putCollection.
    + apply wfState_contents. exact Hs.
    + now apply wfState_registered.
Qed.

Lemma NoDup_LSet_delete l (subs : list Listener) :
  List.NoDup subs -> List.NoDup (LSet.delete l subs).
Proof. intros H. unfold LSet.delete. now apply List.NoDup_filter. Qed.

Lemma wfState_unsubscribe ref l s : wfState s -> wfState (unsubscribe ref l s).
Proof.
  intros [Hst Hls]. unfold unsubscribe.
  destruct (listeners s !! watched_path ref) as [subs|] eqn:E; [|split; assumption].
  destruct (length (LSet.delete l subs) =? 0)%nat eqn:El; split; try exact Hst.
  - intros q subs' H. cbn in H.
    destruct (decide (watched_path ref = q)) as [<-|Hne].
    + rewrite lookup_delete_eq in H. discriminate.
    + rewrite lookup_delete_ne in H by exact Hne. exact (Hls q subs' H).
  - intros q subs' H. cbn in H.
    destruct (decide (watched_path ref = q)) as [<-|Hne].
    + rewrite lookup_insert_eq in H. injection H as <-. split.
      * intros Hnil. rewrite Hnil in El. discriminate.
      * apply NoDup_LSet_delete. exact (proj2 (Hls _ subs E)).
    + rewrite lookup_insert_ne in H by exact Hne. exact (Hls q subs' H).
Qed.

End WellFormed.

Section WellFormedRun.
Variable randomId : nat -> string.
Implicit Types (s : State) (c : Collection).

Lemma wfState_ext s s' :
  store s' = store s -> listeners s' = listeners s -> wfState s -> wfState s'.
Proof. intros Hst Hls [H1 H2]. split; intros p x H; [rewrite Hst in H | rewrite Hls in H]; eauto. Qed.

Lemma wfState_emitCollection p s : wfState s -> wfState (emitCollection p s).
Proof.
  intros Hs. rewrite emitCollection_eq. apply wfState_called, wfState_putCollection.
  - now apply wfState_contents.
  - exact Hs.
Qed.

Lemma replaceItem_docsOk idField c s item c' s' :
  replaceItem randomId idField (Some (c, s)) item = Some (c', s') ->
  docsOk c ->
  docsOk c' /\ store s' = store s /\ listeners s' = listeners s.
Proof.
  unfold replaceItem. intros H Hc.
  assert (G : forall id s0,
             docsOk (OMap.set id
                       (cloneData
                          (if OMap.has idField (OMap.copy item)
                           then OMap.delete idField (OMap.copy item)
                           else OMap.copy item)) c)).
  { intros id0 _. apply docsOk_set; [apply wfData_cloneData | exact Hc]. }
  destruct (OMap.get idField item) as [[ | | | |id| | | ]|];
    try discriminate; injection H as <- <-; auto.
Qed.

Lemma replaceItems_docsOk idField items c s c' s' :
  fold_left (replaceItem randomId idField) items (Some (c, s)) = Some (c', s') ->
  docsOk c ->
  docsOk c' /\ store s' = store s /\ listeners s' = listeners s.
Proof.
  revert c s. induction items as [|item r IH]; intros c s H Hc.
  - injection H as <- <-. auto.
  - cbn [fold_left] in H.
    destruct (replaceItem randomId idField (Some (c, s)) item) as [[c1 s1]|] eqn:E.
    + destruct (replaceItem_docsOk _ _ _ _ _ _ E Hc) as (Hc1 & Hst & Hls).
      destruct (IH _ _ H Hc1) as (Hc' & Hst' & Hls').
      split; [exact Hc'|]. split; congruence.
    + exfalso. clear -H. induction r as [|x r IHr]; [discriminate | exact (IHr H)].
Qed.

Lemma wfState_replaceCollection p items f s s' :
  replaceCollection randomId p items f s = Some s' -> wfState s -> wfState s'.
Proof.
  unfold replaceCollection. rewrite ensureCollection_eq, contents_putCollection_eq.
  rewrite putCollection_twice. intros H Hs.
  destruct (fold_left _ items _) as [[c1 s1]|] eqn:E; [|discriminate].
  injection H as <-.
  destruct (replaceItems_docsOk _ _ _ _ _ _ E docsOk_nil) as (Hc1 & Hst & Hls).
  apply wfState_emitCollection, wfState_putCollection; [exact Hc1|].
  apply (wfState_ext (putCollection p [] s)); [exact Hst | exact Hls |].
  apply wfState_putCollection; [apply docsOk_nil | exact Hs].
Qed.

Lemma docsOk_setDocContent merge id data c :
  docsOk c -> docsOk (setDocContent merge id data c).
Proof.
  intros Hc. unfold setDocContent.
  destruct (merge && OMap.has id c); apply docsOk_set; try exact Hc;
    [|apply wfData_cloneData].
  apply wfData_spread; [|apply wfData_cloneData].
  destruct (OMap.get id c) as [d|] eqn:E; [exact (docsOk_get _ _ _ Hc E) | apply wfData_nil].
Qed.

Lemma docsOk_updateDocContent id data c :
  docsOk c -> docsOk (updateDocContent id data c).
Proof.
  intros Hc. unfold updateDocContent. apply docsOk_set; [|exact Hc].
  apply wfData_spread; [|apply wfData_cloneData].
  destruct (OMap.get id c) as [d|] eqn:E; [exact (docsOk_get _ _ _ Hc E) | apply wfData_nil].
Qed.

Lemma wfState_step s op s' :
  step randomId s op = Some s' -> wfState s -> wfState s'.
Proof.
  destruct op as [r|r|r data|r data merge|r data|r|ref l|ref l|q items f];
    cbn [step]; intros H Hs; try (injection H as <-).
  - rewrite getDocs_eq. cbn [snd].
    apply wfState_putCollection; [now apply wfState_contents | exact Hs].
  - rewrite getDoc_eq. cbn [snd].
    apply wfState_putCollection; [now apply wfState_contents | exact Hs].
  - rewrite addDoc_eq. cbn [snd]. apply wfState_written; [|exact Hs].
    apply docsOk_set; [apply wfData_cloneData | now apply (wfState_contents _ (afterDraw s))].
  - rewrite setDoc_eq. cbn [snd]. apply wfState_written; [|exact Hs].
    apply docsOk_setDocContent. now apply wfState_contents.
  - rewrite updateDoc_eq. destruct (OMap.has _ _); cbn [snd].
    + apply wfState_written; [|exact Hs].
      apply docsOk_updateDocContent. now apply wfState_contents.
    + apply wfState_putCollection; [now apply wfState_contents | exact Hs].
  - rewrite deleteDoc_eq. cbn [snd]. apply wfState_written; [|exact Hs].
    apply docsOk_delete. now apply wfState_contents.
  - now apply wfState_onSnapshot.
  - now apply wfState_unsubscribe.
  - exact (wfState_replaceCollection _ _ _ _ _ H Hs).
Qed.

Lemma wfState_run ops s s' :
  run randomId ops s = Some s' -> wfState s -> wfState s'.
Proof.
  revert s. induction ops as [|op r IH]; intros s H Hs.
  - injection H as <-. exact Hs.
  - cbn [run] in H. destruct (step randomId s op) as [s1|] eqn:E; [|discriminate].
    exact (IH _ H (wfState_step _ _ _ E Hs)).
Qed.

End WellFormedRun.

(** X1. Every state reached from the empty store by any history of
    operations is well formed: in every collection the document ids are
    distinct and the stored documents are well-formed objects, and every
    path in the listener registry holds a non-empty set of distinct
    listeners. *)
Theorem reachable_states_well_formed :
  forall (randomId : nat -> string) (ops : list Op) (s : State),
    run randomId ops initial = Some s -> wfState s.
Proof.
  intros randomId ops s H. exact (wfState_run randomId ops initial s H wfState_initial).
Qed.

Lemma reachable_states_well_formed_witness :
  exists s,
    run (fun _ : nat => "k3x9")
      [ OpAddDoc {| collection_path := "c" |} [("x", VNull)];
        OpOnSnapshot (WDoc {| doc_path := "c/a" |}) 4;
        OpSetDoc {| doc_path := "c/a" |} [("x", VNum 1)] true;
        OpUnsubscribe (WDoc {| doc_path := "c/a" |}) 4 ] initial = Some s /\
    wfState s.
Proof.
  eexists. split; [reflexivity|].
  apply (reachable_states_well_formed (fun _ : nat => "k3x9")
           [ OpAddDoc {| collection_path := "c" |} [("x", VNull)];
             OpOnSnapshot (WDoc {| doc_path := "c/a" |}) 4;
             OpSetDoc {| doc_path := "c/a" |} [("x", VNum 1)] true;
             OpUnsubscribe (WDoc {| doc_path := "c/a" |}) 4 ]).
  reflexivity.
Defined.

(** ** Reading back what was written *)

Lemma cloneData_idempotent (d : DocData) : cloneData (cloneData d) = cloneData d.
Proof. apply cloneData_wf, wfData_cloneData. Qed.



(** ** Deleting *)

(** X3. [deleteDoc] never fails and is idempotent: after it a read of the
    reference reports [exists() = false] with no data, a second [deleteDoc]
    succeeds too and leaves the collection as the first one left it, and
    deleting an absent id leaves the collection as it was.  (The collection
    is a proper map: its ids are distinct.) *)
Theorem deleteDoc_idempotent :
  forall (s : State) (docRef : DocRef),
    let p := collectionPath (splitDocPath (doc_path docRef)) in
    let id := docId (splitDocPath (doc_path docRef)) in
    let s1 := snd (deleteDoc docRef s) in
    let s2 := snd (deleteDoc docRef s1) in
    List.NoDup (OMap.keys (contents p s)) ->
    fst (deleteDoc docRef s) = Ok tt /\
    fst (deleteDoc docRef s1) = Ok tt /\
    OMap.get id (contents p s1) = None /\
    (exists d, fst (getDoc docRef s1) = Ok d /\
               snap_exists d = false /\ snap_data d = None) /\
    contents p s2 = contents p s1 /\
    (OMap.has id (contents p s) = false -> contents p s1 = contents p s).
Proof.
  intros s docRef p id s1 s2 Hnd. subst s2 s1.
  rewrite !deleteDoc_eq. fold p id. cbn [fst snd]. rewrite !contents_written_eq.
  assert (Hgone : OMap.get id (OMap.delete id (contents p s)) = None)
    by now apply OMapFacts.get_delete_eq.
  repeat split.
  - exact Hgone.
  - rewrite getDoc_eq. fold p id. cbn [fst]. eexists. split; [reflexivity|].
    unfold docSnapshotAt, snap_exists, snap_data.
    cbn [snap_captured createDocSnapshot].
    rewrite contents_written_eq, Hgone. split; reflexivity.
  - apply OMapFacts.keys_delete_absent. now apply OMapFacts.has_false_get.
  - intros Habs. now apply OMapFacts.keys_delete_absent.
Qed.

Lemma deleteDoc_idempotent_witness :
  let s := snd (setDoc {| doc_path := "vehicles/v1" |} [("vin", VStr "X")] false initial) in
  let s1 := snd (deleteDoc {| doc_path := "vehicles/v1" |} s) in
  contents "vehicles" s = [("v1", [("vin", VStr "X")])] /\
  contents "vehicles" s1 = [] /\
  contents "vehicles" (snd (deleteDoc {| doc_path := "vehicles/v1" |} s1)) = [].
Proof.
  intros s s1.
  assert (Hnd : List.NoDup (OMap.keys (contents "vehicles" s))).
  { repeat constructor. simpl. intuition. }
  destruct (deleteDoc_idempotent s {| doc_path := "vehicles/v1" |} Hnd)
    as (_ & _ & _ & _ & H2 & _).
  split; [reflexivity|]. split; [reflexivity|].
  etransitivity; [exact H2 | reflexivity].
Defined.

(** ** What a mutation leaves alone *)

(** X4. A document-level mutation changes one document only: after
    [setDoc], [updateDoc] or [deleteDoc] on [p]/[id], and after [addDoc]
    into [q] under the generated id, every other document of every
    collection reads as before. *)
Theorem mutation_frame :
  forall (randomId : nat -> string) (s : State) (docRef : DocRef)
         (collectionRef : CollectionRef) (data : DocData) (merge : bool)
         (q' id' : string),
    let p := collectionPath (splitDocPath (doc_path docRef)) in
    let id := docId (splitDocPath (doc_path docRef)) in
    let same (s' : State) := OMap.get id' (contents q' s') = OMap.get id' (contents q' s) in
    (q' <> p \/ id' <> id ->
     same (snd (setDoc docRef data merge s)) /\
     same (snd (updateDoc docRef data s)) /\
     same (snd (deleteDoc docRef s))) /\
    (q' <> collection_path collectionRef \/ id' <> randomId (drawn s) ->
     same (snd (addDoc randomId collectionRef data s))).
Proof.
  intros randomId s docRef collectionRef data merge q' id' p id same. subst same.
  cbv beta. split.
  - intros Hne. rewrite setDoc_eq, updateDoc_eq, deleteDoc_eq. fold p id.
    destruct (String.eqb_spec p q') as [<-|Hq].
    + assert (Hid : id <> id') by (destruct Hne; congruence).
      repeat split; cbn [snd].
      * rewrite contents_written_eq. unfold setDocContent.
        destruct (merge && OMap.has id (contents p s));
          now apply OMapFacts.get_set_ne.
      * destruct (OMap.has id (contents p s)); cbn [snd].
        -- rewrite contents_written_eq. now apply OMapFacts.get_set_ne.
        -- now rewrite contents_putCollection_eq.
      * rewrite contents_written_eq. now apply OMapFacts.get_delete_ne.
    + repeat split; cbn [snd].
      * now rewrite contents_written_ne.
      * destruct (OMap.has id (contents p s)); cbn [snd].
        -- now rewrite contents_written_ne.
        -- now rewrite contents_putCollection_ne.
      * now rewrite contents_written_ne.
  - intros Hne. rewrite addDoc_eq. cbn [snd].
    destruct (String.eqb_spec (collection_path collectionRef) q') as [<-|Hq].
    + rewrite contents_written_eq. apply OMapFacts.get_set_ne.
      destruct Hne; congruence.
    + now rewrite contents_written_ne.
Qed.

Lemma mutation_frame_witness :
  let s := snd (setDoc {| doc_path := "vehicles/v1" |} [("vin", VStr "X")] false initial) in
  OMap.get "v1" (contents "vehicles" (snd (deleteDoc {| doc_path := "vehicles/v2" |} s)))
  = Some [("vin", VStr "X")].
Proof.
  intros s.
  pose proof (proj1 (mutation_frame (fun _ => "k3x9") s {| doc_path := "vehicles/v2" |}
                       {| collection_path := "users" |} [] false "vehicles" "v1")) as H.
  destruct H as (_ & _ & H); [right; discriminate|].
  etransitivity; [exact H | reflexivity].
Defined.

(** ** Reads *)

(** X5. [getDoc] and [getDocs] never fail, invoke no listener and change no
    document, no registration and no counter; [getDoc] on an id that is not
    in the collection (or in a collection that does not exist) returns a
    snapshot with [exists() = false] and no data, and otherwise one with the
    clone of the stored fields. *)
Theorem reads_are_silent :
  forall (s : State) (docRef : DocRef) (collectionRef : CollectionRef),
    let p := collectionPath (splitDocPath (doc_path docRef)) in
    let id := docId (splitDocPath (doc_path docRef)) in
    let quiet (s' : State) :=
      calls s' = calls s /\ listeners s' = listeners s /\ drawn s' = drawn s /\
      forall q, contents q s' = contents q s in
    quiet (snd (getDoc docRef s)) /\
    quiet (snd (getDocs collectionRef s)) /\
    (exists d, fst (getDoc docRef s) = Ok d /\
               snap_id d = id /\
               snap_exists d = OMap.has id (contents p s) /\
               snap_data d = option_map cloneData (OMap.get id (contents p s))) /\
    (exists c, fst (getDocs collectionRef s) = Ok c /\
               map snap_id (docs c) = OMap.keys (contents (collection_path collectionRef) s) /\
               size c = length (contents (collection_path collectionRef) s) /\
               empty c = (length (contents (collection_path collectionRef) s) =? 0)%nat).
Proof.
  intros s docRef collectionRef p id quiet. subst quiet. cbv beta.
  rewrite getDoc_eq, getDocs_eq. fold p id. cbn [fst snd].
  repeat split; try (intros q; apply contents_put_same).
  - eexists. split; [reflexivity|].
    unfold docSnapshotAt, snap_exists, snap_data, OMap.has.
    cbn [snap_captured snap_id createDocSnapshot].
    destruct (OMap.get id (contents p s)); repeat split.
  - eexists. split; [reflexivity|].
    unfold snapshotOf, createCollectionSnapshot.
    rewrite ensureCollection_eq, contents_putCollection_eq. cbn [fst docs size empty].
    rewrite map_map, !length_map. repeat split.
Qed.

(** ** Subscribing and unsubscribing *)

Section ListenerSets.
Implicit Types (l : Listener) (subs : list Listener).

Lemma LSet_mem_In l subs : LSet.mem l subs = true <-> List.In l subs.
Proof.
  unfold LSet.mem. rewrite existsb_exists. split.
  - intros (x & Hx & E). apply Nat.eqb_eq in E. now subst.
  - intros H. exists l. split; [exact H | apply Nat.eqb_refl].
Qed.

Lemma LSet_mem_add l subs : LSet.mem l (LSet.add l subs) = true.
Proof.
  unfold LSet.add. destruct (LSet.mem l subs) eqn:E; [exact E|].
  apply LSet_mem_In, in_or_app. right. now left.
Qed.

Lemma LSet_add_idempotent l subs : LSet.add l (LSet.add l subs) = LSet.add l subs.
Proof. unfold LSet.add at 1. now rewrite LSet_mem_add. Qed.

Lemma LSet_mem_delete l subs : LSet.mem l (LSet.delete l subs) = false.
Proof.
  destruct (LSet.mem l (LSet.delete l subs)) eqn:E; [|reflexivity].
  apply LSet_mem_In in E. unfold LSet.delete in E. apply List.filter_In in E as [_ E].
  now rewrite Nat.eqb_refl in E.
Qed.

Lemma LSet_delete_absent l subs : LSet.mem l subs = false -> LSet.delete l subs = subs.
Proof.
  unfold LSet.delete, LSet.mem. induction subs as [|x r IH]; [reflexivity|].
  simpl. destruct (Nat.eqb l x); simpl; [discriminate|].
  intros H. now rewrite IH.
Qed.

Lemma LSet_delete_add l subs :
  LSet.mem l subs = false -> LSet.delete l (LSet.add l subs) = subs.
Proof.
  intros H. unfold LSet.add. rewrite H. unfold LSet.delete.
  rewrite List.filter_app. simpl. rewrite Nat.eqb_refl. simpl. rewrite app_nil_r.
  now apply LSet_delete_absent.
Qed.

End ListenerSets.

(** X6. [onSnapshot] registers the callback on the path of the reference and
    invokes it exactly once, at once, with the current snapshot of that
    reference (a collection snapshot for a collection reference, a document
    snapshot for a document reference); no other listener is invoked, no
    other path's registrations and no documents change.  Registering a
    callback that is already registered on the path leaves the set as it is,
    so a later notification reaches it once. *)
Theorem onSnapshot_registers_and_replays :
  forall (s : State) (ref : Watched) (callback : Listener),
    let path := watched_path ref in
    let s' := onSnapshot ref callback s in
    let current :=
      match ref with
      | WCollection r => OfCollection (collectionSnapshotAt (collection_path r) s)
      | WDoc r =>
          OfDoc (docSnapshotAt (collectionPath (splitDocPath (doc_path r)))
                               (docId (splitDocPath (doc_path r))) s)
      end in
    calls s' = (calls s ++ [(callback, current)])%list /\
    subscribers path s' = LSet.add callback (subscribers path s) /\
    LSet.mem callback (subscribers path s') = true /\
    (forall q, q <> path -> subscribers q s' = subscribers q s) /\
    (forall q, contents q s' = contents q s) /\
    subscribers path (onSnapshot ref callback s') = subscribers path s' /\
    (List.NoDup (subscribers path s) ->
     count_occ Nat.eq_dec (subscribers path (onSnapshot ref callback s')) callback = 1%nat).
Proof.
  intros s ref callback path s' current.
  assert (Hsub : forall t, subscribers path (onSnapshot ref callback t)
                           = LSet.add callback (subscribers path t)).
  { intros t. rewrite subscribers_onSnapshot. subst path. now rewrite String.eqb_refl. }
  split; [|split; [|split; [|split; [|split; [|split]]]]].
  - subst s' current. destruct ref as [r|r].
    + rewrite onSnapshot_collection_eq, collectionSnapshotAt_eq. reflexivity.
    + rewrite onSnapshot_doc_eq. reflexivity.
  - apply Hsub.
  - subst s'. rewrite Hsub. apply LSet_mem_add.
  - intros q Hq. subst s' path. rewrite subscribers_onSnapshot.
    destruct (String.eqb_spec (watched_path ref) q); [congruence | reflexivity].
  - intros q. apply contents_onSnapshot.
  - subst s'. rewrite !Hsub. apply LSet_add_idempotent.
  - intros Hnd. subst s'. rewrite !Hsub, LSet_add_idempotent.
    apply List.NoDup_count_occ'.
    + now apply NoDup_LSet_add.
    + apply LSet_mem_In, LSet_mem_add.
Qed.

Lemma onSnapshot_registers_and_replays_witness :
  count_occ Nat.eq_dec
    (subscribers "vehicles"
       (onSnapshot (WCollection {| collection_path := "vehicles" |}) 7
          (onSnapshot (WCollection {| collection_path := "vehicles" |}) 7 initial)))
    7 = 1%nat.
Proof.
  apply (onSnapshot_registers_and_replays initial
           (WCollection {| collection_path := "vehicles" |}) 7).
  constructor.
Defined.

(** X7. Unsubscribing undoes a subscription: in a well-formed state, for a
    callback not yet registered on the path, [onSnapshot] followed by the
    unsubscribe function it returns leaves the listener registry exactly as
    it was before (the path's entry is removed again if it was created), and
    the unsubscribe changes neither documents nor the trace of calls. *)
Theorem unsubscribe_undoes_onSnapshot :
  forall (s : State) (ref : Watched) (callback : Listener),
    let path := watched_path ref in
    let s1 := onSnapshot ref callback s in
    let s2 := unsubscribe ref callback s1 in
    wfState s ->
    LSet.mem callback (subscribers path s) = false ->
    listeners s2 = listeners s /\
    store s2 = store s1 /\ calls s2 = calls s1 /\ drawn s2 = drawn s1.
Proof.
  intros s ref callback path s1 s2 [_ Hls] Hmem.
  assert (Hl1 : listeners s1
                = <[path := LSet.add callback (subscribers path s)]> (listeners s)).
  { subst s1 path. destruct ref as [r|r].
    - now rewrite onSnapshot_collection_eq.
    - now rewrite onSnapshot_doc_eq. }
  subst s2. unfold unsubscribe. fold path. rewrite Hl1, lookup_insert_eq.
  rewrite LSet_delete_add by exact Hmem.
  unfold subscribers in *.
  destruct (listeners s !! path) as [subs|] eqn:E.
  - destruct (Hls path subs E) as [Hne _].
    destruct subs as [|x r]; [congruence|]. cbn [length Nat.eqb].
    cbn. rewrite Hl1, insert_insert_eq. repeat split. now apply insert_id.
  - cbn. rewrite Hl1. repeat split. rewrite delete_insert_eq.
    now apply delete_id.
Qed.

Lemma unsubscribe_undoes_onSnapshot_witness :
  listeners (unsubscribe (WDoc {| doc_path := "vehicles/v1" |}) 3
               (onSnapshot (WDoc {| doc_path := "vehicles/v1" |}) 3 initial))
  = listeners initial.
Proof.
  apply (unsubscribe_undoes_onSnapshot initial (WDoc {| doc_path := "vehicles/v1" |}) 3).
  - exact wfState_initial.
  - reflexivity.
Defined.

(** X8. After the unsubscribe function has run, the callback is no longer
    registered on that path, the registrations of every other path and of
    every other callback are as before, and nothing else has changed.  In a
    well-formed state, unsubscribing a callback that is not registered
    changes nothing at all. *)
Theorem unsubscribe_removes_only_the_callback :
  forall (s : State) (ref : Watched) (callback : Listener),
    let path := watched_path ref in
    let s' := unsubscribe ref callback s in
    LSet.mem callback (subscribers path s') = false /\
    subscribers path s' = LSet.delete callback (subscribers path s) /\
    (forall other, other <> callback ->
        LSet.mem other (subscribers path s') = LSet.mem other (subscribers path s)) /\
    (forall q, q <> path -> subscribers q s' = subscribers q s) /\
    store s' = store s /\ calls s' = calls s /\ drawn s' = drawn s /\
    (wfState s -> LSet.mem callback (subscribers path s) = false -> s' = s).
Proof.
  intros s ref callback path s'.
  assert (Hsub : subscribers path s' = LSet.delete callback (subscribers path s)).
  { subst s'. unfold unsubscribe, subscribers. fold path.
    destruct (listeners s !! path) as [subs|] eqn:E; [|now rewrite E].
    destruct (length (LSet.delete callback subs) =? 0)%nat eqn:El; cbn.
    - rewrite lookup_delete_eq. apply Nat.eqb_eq in El.
      now destruct (LSet.delete callback subs).
    - now rewrite lookup_insert_eq. }
  split; [|split; [|split; [|split; [|split; [|split; [|split]]]]]].
  - rewrite Hsub. apply LSet_mem_delete.
  - exact Hsub.
  - intros other Hne. rewrite Hsub. clear Hsub. unfold LSet.delete, LSet.mem.
    induction (subscribers path s) as [|x r IH]; [reflexivity|].
    simpl. destruct (Nat.eqb_spec callback x) as [<-|Hx]; simpl.
    + destruct (Nat.eqb_spec other callback); [congruence | exact IH].
    + now rewrite IH.
  - intros q Hq. subst s'. unfold unsubscribe, subscribers. fold path.
    destruct (listeners s !! path) as [subs|]; [|reflexivity].
    destruct (length (LSet.delete callback subs) =? 0)%nat; cbn.
    + now rewrite lookup_delete_ne.
    + now rewrite lookup_insert_ne.
  - subst s'. unfold unsubscribe.
    destruct (listeners s !! watched_path ref) as [subs|]; [|reflexivity].
    now destruct (length (LSet.delete callback subs) =? 0)%nat.
  - subst s'. unfold unsubscribe.
    destruct (listeners s !! watched_path ref) as [subs|]; [|reflexivity].
    now destruct (length (LSet.delete callback subs) =? 0)%nat.
  - subst s'. unfold unsubscribe.
    destruct (listeners s !! watched_path ref) as [subs|]; [|reflexivity].
    now destruct (length (LSet.delete callback subs) =? 0)%nat.
  - intros [_ Hls] Hmem. subst s' path. unfold unsubscribe. unfold subscribers in Hmem.
    destruct (listeners s !! watched_path ref) as [subs|] eqn:E; [|reflexivity].
    rewrite LSet_delete_absent by exact Hmem.
    destruct (Hls _ subs E) as [Hne _].
    destruct subs as [|x r]; [congruence|]. cbn [length Nat.eqb].
    destruct s as [st ls cs n]. unfold withListeners. cbn in *.
    f_equal. now apply insert_id.
Qed.

Lemma unsubscribe_removes_only_the_callback_witness :
  unsubscribe (WDoc {| doc_path := "vehicles/v1" |}) 3 initial = initial.
Proof.
  apply (unsubscribe_removes_only_the_callback initial
           (WDoc {| doc_path := "vehicles/v1" |}) 3).
  - exact wfState_initial.
  - reflexivity.
Defined.

(** ** Who is notified *)

(** the callback invocations made after state [s] on the way to [s'] *)
Lemma deliveries_listeners path snapshot s :
  map fst (deliveries path snapshot s) = subscribers path s.
Proof. unfold deliveries. rewrite map_map. apply map_id. Qed.

(** X9. A document-level mutation of [p]/[id] invokes the listeners of the
    document path [p/id], in their registration order, followed by the
    listeners of the collection path [p], in theirs, and nobody else:
    listeners registered on other documents or other collections are never
    invoked, and the earlier part of the trace of calls is untouched. *)
Theorem mutation_notifies_only_its_paths :
  forall (randomId : nat -> string) (s : State) (docRef : DocRef)
         (collectionRef : CollectionRef) (data : DocData) (merge : bool),
    let p := collectionPath (splitDocPath (doc_path docRef)) in
    let id := docId (splitDocPath (doc_path docRef)) in
    let invokes (s' : State) (p id : string) :=
      exists new,
        calls s' = (calls s ++ new)%list /\
        map fst new = (subscribers (p ++ "/" ++ id) s ++ subscribers p s)%list in
    invokes (snd (setDoc docRef data merge s)) p id /\
    invokes (snd (deleteDoc docRef s)) p id /\
    invokes (snd (addDoc randomId collectionRef data s))
            (collection_path collectionRef) (randomId (drawn s)) /\
    (if OMap.has id (contents p s)
     then invokes (snd (updateDoc docRef data s)) p id
     else calls (snd (updateDoc docRef data s)) = calls s).
Proof.
  intros randomId s docRef collectionRef data merge p id invokes.
  assert (G : forall q i c t, calls t = calls s -> listeners t = listeners s ->
            exists new,
              calls (written q i c t) = (calls s ++ new)%list /\
              map fst new = (subscribers (q ++ "/" ++ i) s ++ subscribers q s)%list).
  { intros q i c t Hc Hl. exists (docDeliveries q i c t).
    rewrite calls_written, Hc. split; [reflexivity|].
    unfold docDeliveries. rewrite map_app, !deliveries_listeners.
    unfold subscribers. now rewrite Hl. }
  subst invokes. cbv beta.
  rewrite setDoc_eq, deleteDoc_eq, addDoc_eq, updateDoc_eq. fold p id. cbn [snd].
  repeat split; try (apply G; reflexivity).
  destruct (OMap.has id (contents p s)); cbn [snd]; [apply G; reflexivity | reflexivity].
Qed.

(** ** Generated identifiers *)

(** X10. [addDoc] draws one identifier and stores the clone of the data
    under it.  If the collection has no document with that identifier the
    new document becomes the last one of the collection; if it has one (the
    generator does not check), that document is overwritten in place and the
    collection does not grow. *)
Theorem addDoc_fresh_or_collision :
  forall (randomId : nat -> string) (s : State) (collectionRef : CollectionRef)
         (data : DocData),
    let q := collection_path collectionRef in
    let fresh := randomId (drawn s) in
    let s' := snd (addDoc randomId collectionRef data s) in
    drawn s' = S (drawn s) /\
    OMap.get fresh (contents q s') = Some (cloneData data) /\
    snapshotIds q s'
      = (if OMap.has fresh (contents q s)
         then snapshotIds q s
         else (snapshotIds q s ++ [fresh])%list) /\
    length (contents q s')
      = (if OMap.has fresh (contents q s)
         then length (contents q s)
         else S (length (contents q s))).
Proof.
  intros randomId s collectionRef data q fresh s'. subst s'.
  rewrite addDoc_eq. fold q fresh. cbn [snd].
  rewrite !snapshotIds_keys, contents_written_eq.
  split; [reflexivity|]. split; [apply OMapFacts.get_set_eq|].
  rewrite OMapFacts.keys_set. split; [reflexivity|].
  rewrite <- !(length_map fst). change (map fst) with (@OMap.keys DocData).
  rewrite OMapFacts.keys_set.
  destruct (OMap.has fresh (contents q s)); [reflexivity|].
  rewrite length_app. simpl. lia.
Qed.

(** ** [updateDoc] and merging [setDoc] *)

Lemma set_same {A} k (v : A) (o : list (string * A)) :
  OMap.get k o = Some v -> OMap.set k v o = o.
Proof.
  induction o as [|[k' v'] r IH]; simpl; [discriminate|].
  destruct (String.eqb k k'); [intros H; injection H as ->; reflexivity|].
  intros H. now rewrite IH.
Qed.

Lemma set_set {A} k (v v' : A) (o : list (string * A)) :
  OMap.set k v' (OMap.set k v o) = OMap.set k v' o.
Proof.
  induction o as [|[k0 v0] r IH]; simpl.
  - now rewrite String.eqb_refl.
  - destruct (String.eqb k k0) eqn:E; simpl; rewrite E; [reflexivity | now rewrite IH].
Qed.

(** copying onto a target properties it already has changes nothing *)
Lemma assign_absorb {A} (target src : list (string * A)) :
  (forall k v, List.In (k, v) src -> OMap.get k target = Some v) ->
  OMap.assign target src = target.
Proof.
  unfold OMap.assign. induction src as [|[k v] r IH]; intros H; simpl; [reflexivity|].
  rewrite set_same by (apply H; now left).
  apply IH. intros k' v' Hin. apply H. now right.
Qed.

Lemma In_get_NoDup {A} k (v : A) (o : list (string * A)) :
  List.NoDup (OMap.keys o) -> List.In (k, v) o -> OMap.get k o = Some v.
Proof.
  induction o as [|[k0 v0] r IH]; intros Hnd Hin; [destruct Hin|].
  apply List.NoDup_cons_iff in Hnd as [Hnin Hnd]. simpl.
  destruct Hin as [E|Hin].
  - injection E as -> ->. now rewrite String.eqb_refl.
  - destruct (String.eqb_spec k k0) as [->|Hne]; [|now apply IH].
    exfalso. apply Hnin. unfold OMap.keys. apply in_map_iff. now exists (k0, v).
Qed.

Lemma spread_absorb (F G : DocData) :
  List.NoDup (OMap.keys G) ->
  OMap.spread (OMap.spread F G) G = OMap.spread F G.
Proof.
  intros HG. unfold OMap.spread at 1.
  rewrite OMapFacts.assign_nil_NoDup
    by (unfold OMap.spread; apply NoDup_keys_assign, NoDup_keys_assign; constructor).
  apply assign_absorb. intros k v Hin.
  unfold OMap.spread. rewrite OMapFacts.get_assign by exact HG.
  now rewrite (In_get_NoDup k v G HG Hin).
Qed.

Lemma NoDup_keys_cloneData (d : DocData) : List.NoDup (OMap.keys (cloneData d)).
Proof. exact (proj1 (wfData_cloneData d)). Qed.

(** X11. On a document that exists, [updateDoc] is [setDoc] with
    [{merge: true}]: same result, same store, same notifications.  On a
    document that does not exist, [setDoc] with merge is [setDoc] without
    it. *)
Theorem updateDoc_is_merging_setDoc :
  forall (s : State) (docRef : DocRef) (data : DocData),
    let p := collectionPath (splitDocPath (doc_path docRef)) in
    let id := docId (splitDocPath (doc_path docRef)) in
    if OMap.has id (contents p s)
    then updateDoc docRef data s = setDoc docRef data true s
    else setDoc docRef data true s = setDoc docRef data false s.
Proof.
  intros s docRef data p id.
  rewrite updateDoc_eq, !setDoc_eq. fold p id. unfold setDocContent, updateDocContent.
  destruct (OMap.has id (contents p s)); reflexivity.
Qed.

(** X12. Writing the same fields again changes no document: after a
    [setDoc], a second [setDoc] with the same data and the same merge option,
    a merging [setDoc] with the same data, or an [updateDoc] with the same
    data, leaves the store exactly as the first write left it (the listeners
    are notified again), and the [updateDoc] succeeds. *)
Theorem repeated_write_is_idempotent :
  forall (s : State) (docRef : DocRef) (data : DocData) (merge : bool),
    let s1 := snd (setDoc docRef data merge s) in
    store (snd (setDoc docRef data merge s1)) = store s1 /\
    store (snd (setDoc docRef data true s1)) = store s1 /\
    store (snd (updateDoc docRef data s1)) = store s1 /\
    fst (updateDoc docRef data s1) = Ok tt.
Proof.
  intros s docRef data merge s1.
  set (p := collectionPath (splitDocPath (doc_path docRef))).
  set (id := docId (splitDocPath (doc_path docRef))).
  set (G := cloneData data).
  assert (HG : List.NoDup (OMap.keys G)) by apply NoDup_keys_cloneData.
  assert (HGG : OMap.spread G G = G).
  { unfold OMap.spread. rewrite OMapFacts.assign_nil_NoDup by exact HG.
    apply assign_absorb. intros k v Hin. now apply In_get_NoDup. }
  assert (Hc1 : exists X, contents p s1 = OMap.set id X (contents p s) /\
                          OMap.spread X G = X /\ (merge = false -> X = G)).
  { subst s1. rewrite setDoc_eq. fold p id. cbn [snd]. rewrite contents_written_eq.
    unfold setDocContent. fold G.
    destruct (merge && OMap.has id (contents p s)) eqn:E.
    - eexists. split; [reflexivity|]. split; [now apply spread_absorb|].
      intros ->. discriminate.
    - exists G. auto. }
  destruct Hc1 as (X & Hc1 & HX & HXG).
  assert (Hst1 : store s1 !! p = Some (contents p s1)).
  { subst s1. rewrite setDoc_eq. fold p id. cbn [snd].
    rewrite contents_written_eq. cbn. apply lookup_insert_eq. }
  assert (Hget : OMap.get id (contents p s1) = Some X).
  { rewrite Hc1. apply OMapFacts.get_set_eq. }
  assert (Hhas : OMap.has id (contents p s1) = true).
  { apply OMapFacts.has_get. eauto. }
  assert (Hmerged : OMap.set id (OMap.spread X G) (contents p s1) = contents p s1).
  { rewrite HX. now apply set_same. }
  assert (Hsame : forall c, c = contents p s1 -> <[p := c]> (store s1) = store s1).
  { intros c ->. now apply insert_id. }
  rewrite !setDoc_eq, updateDoc_eq. fold p id. rewrite Hhas. cbn [fst snd].
  unfold setDocContent, updateDocContent. fold G. rewrite Hhas, Hget.
  repeat split; cbn; apply Hsame.
  - destruct merge; cbn [andb]; [exact Hmerged|].
    rewrite (HXG eq_refl) in Hget. now apply set_same.
  - exact Hmerged.
  - exact Hmerged.
Qed.

(** ** Seeding with explicit identifiers *)

Lemma planned_explicit randomId idField n (items : list DocData) (ids : list string) :
  map (OMap.get idField) items = map (fun i => Some (VStr i)) ids ->
  planned randomId idField n items
    = combine ids (map (fun item => cloneData (OMap.delete idField item)) items) /\
  drawnAfter idField n items = n /\
  List.Forall (typedItem idField) items.
Proof.
  revert ids. induction items as [|item r IH]; intros [|i ids] H; try discriminate.
  - repeat split. constructor.
  - injection H as Hi Hr. destruct (IH ids Hr) as (Hp & Hd & Hty).
    cbn [planned drawnAfter map combine]. rewrite Hi, Hp, Hd.
    repeat split. constructor; [|exact Hty]. unfold typedItem. now rewrite Hi.
Qed.

Lemma keys_combine {A} (ids : list string) (xs : list A) :
  length ids = length xs -> OMap.keys (combine ids xs) = ids.
Proof.
  revert xs. induction ids as [|i r IH]; intros [|x xs] H; try discriminate; [reflexivity|].
  simpl. f_equal. apply IH. now injection H.
Qed.

Lemma replaceCollection_explicit_eq (randomId : nat -> string) (s : State)
    (path : string) (items : list DocData) (idFieldOption : option string)
    (ids : list string) :
  let idField := match idFieldOption with Some f => f | None => "id" end in
  map (OMap.get idField) items = map (fun i => Some (VStr i)) ids ->
  List.NoDup ids ->
  List.Forall (fun item => List.NoDup (OMap.keys item)) items ->
  exists s',
    replaceCollection randomId path items idFieldOption s = Some s' /\
    contents path s'
      = combine ids (map (fun item => cloneData (OMap.delete idField item)) items) /\
    snapshotIds path s' = ids /\
    length (contents path s') = length items /\
    drawn s' = drawn s /\
    (forall q, q <> path -> contents q s' = contents q s) /\
    listeners s' = listeners s.
Proof.
  intros idField Hids Hnd Hitems.
  destruct (planned_explicit randomId idField (drawn s) items ids Hids)
    as (Hp & Hd & Hty).
  assert (Hlen : length ids = length items).
  { apply (f_equal (@length _)) in Hids. now rewrite !length_map in Hids. }
  assert (Hk : OMap.keys (planned randomId idField (drawn s) items) = ids).
  { rewrite Hp. apply keys_combine. now rewrite length_map. }
  eexists. split.
  { apply (replaceCollection_eq randomId idField); [reflexivity | exact Hty | exact Hitems]. }
  rewrite snapshotIds_keys, contents_called, contents_putCollection_eq.
  rewrite OMapFacts.assign_nil_NoDup by now rewrite Hk.
  split; [exact Hp|]. split; [exact Hk|]. split; [|split; [exact Hd|split]].
  - rewrite Hp, length_combine, length_map, Hlen. apply Nat.min_id.
  - intros q Hq. rewrite contents_called.
    rewrite contents_putCollection_ne by congruence. reflexivity.
  - reflexivity.
Qed.

(** X13. When every item carries a string identifier and the identifiers
    are pairwise distinct, [replaceCollection] stores exactly one document
    per item, in the order of the items, each under its own identifier and
    with the clone of its other fields; no identifier is generated. *)
Theorem replaceCollection_explicit_ids :
  forall (randomId : nat -> string) (s : State) (path : string)
         (items : list DocData) (idFieldOption : option string) (ids : list string),
    let idField := match idFieldOption with Some f => f | None => "id" end in
    map (OMap.get idField) items = map (fun i => Some (VStr i)) ids ->
    List.NoDup ids ->
    List.Forall (fun item => List.NoDup (OMap.keys item)) items ->
    exists s',
      replaceCollection randomId path items idFieldOption s = Some s' /\
      contents path s'
        = combine ids (map (fun item => cloneData (OMap.delete idField item)) items) /\
      snapshotIds path s' = ids /\
      length (contents path s') = length items /\
      drawn s' = drawn s.
Proof.
  intros randomId s path items idFieldOption ids idField Hids Hnd Hitems.
  destruct (replaceCollection_explicit_eq randomId s path items idFieldOption ids
              Hids Hnd Hitems) as (s' & H1 & H2 & H3 & H4 & H5 & _).
  exists s'. repeat split; assumption.
Qed.

Lemma replaceCollection_explicit_ids_witness :
  exists s',
    replaceCollection (fun _ => "k3x9") "users"
      [ [("id", VStr "u1"); ("name", VStr "Alex Chen")];
        [("id", VStr "u2"); ("name", VStr "Priya Patel")] ] (Some "id") initial
    = Some s' /\
    snapshotIds "users" s' = ["u1"; "u2"].
Proof.
  destruct (replaceCollection_explicit_ids (fun _ => "k3x9") initial "users"
              [ [("id", VStr "u1"); ("name", VStr "Alex Chen")];
                [("id", VStr "u2"); ("name", VStr "Priya Patel")] ]
              (Some "id") ["u1"; "u2"])
    as (s' & Hs' & _ & Hids & _).
  - reflexivity.
  - repeat constructor; simpl; intuition discriminate.
  - repeat constructor; simpl; intuition discriminate.
  - exists s'. split; [exact Hs' | exact Hids].
Defined.

(** ** References built by [doc] *)

Section DocPaths.
Implicit Types (segments : list string) (id : string).

Lemma string_app_assoc (a b c : string) : (a ++ b) ++ c = a ++ b ++ c.
Proof.
  induction a as [|x a IH]; [reflexivity|].
  change (String x ((a ++ b) ++ c) = String x (a ++ b ++ c)). now f_equal.
Qed.

Lemma filter_truthy_all segments :
  List.Forall (fun x => slashFree x = true /\ truthy x = true) segments ->
  List.filter truthy segments = segments.
Proof.
  induction 1 as [|x r [_ Hx] Hr IH]; [reflexivity|]. simpl. now rewrite Hx, IH.
Qed.

Lemma Forall_slashFree segments :
  List.Forall (fun x => slashFree x = true /\ truthy x = true) segments ->
  List.Forall (fun x => slashFree x = true) segments.
Proof. apply List.Forall_impl. now intros x [H _]. Qed.

(** splitting the path that [doc] makes of a collection path and an id *)
Lemma splitDocPath_doc segments id :
  segments <> [] ->
  List.Forall (fun x => slashFree x = true /\ truthy x = true) segments ->
  let parts := (segments ++ List.filter truthy (split id))%list in
  splitDocPath (join segments ++ "/" ++ id)
  = {| collectionPath := join (List.removelast parts); docId := List.last parts "" |}.
Proof.
  intros Hne Hall parts. subst parts. unfold splitDocPath.
  rewrite split_app_slash, split_join by (auto using Forall_slashFree).
  now rewrite List.filter_app, filter_truthy_all.
Qed.

End DocPaths.

(** X14. A reference made by [doc] from a collection reference and an
    identifier is taken apart again by the operations as follows: the
    non-empty segments of the identifier are appended to those of the
    collection path, the last one is the document id and the rest the
    collection path.  So for a non-empty identifier without ["/"] the
    operations address that identifier in that collection; for the empty
    identifier they address the last segment of the collection path as a
    document of the path before it; an identifier with ["/"] in it addresses a
    document of a nested collection. *)
Theorem doc_reference_addresses :
  forall (numberToString : Q -> string) (segments : list string) (id : string),
    let c := {| collection_path := join segments |} in
    segments <> [] ->
    List.Forall (fun x => slashFree x = true /\ truthy x = true) segments ->
    exists r,
      doc numberToString [collectionValue c; VStr id] = Ok r /\
      (let parts := (segments ++ List.filter truthy (split id))%list in
       splitDocPath (doc_path r)
       = {| collectionPath := join (List.removelast parts);
            docId := List.last parts "" |}) /\
      (slashFree id = true -> truthy id = true ->
       splitDocPath (doc_path r) = {| collectionPath := join segments; docId := id |}) /\
      (id = "" ->
       splitDocPath (doc_path r)
       = {| collectionPath := join (List.removelast segments);
            docId := List.last segments "" |}) /\
      (forall a b, slashFree a = true -> truthy a = true ->
                   slashFree b = true -> truthy b = true ->
                   id = a ++ "/" ++ b ->
                   splitDocPath (doc_path r)
                   = {| collectionPath := join segments ++ "/" ++ a; docId := b |}).
Proof.
  intros numberToString segments id c Hne Hall.
  eexists. split; [apply doc_collection|]. cbn [doc_path collection_path c].
  pose proof (splitDocPath_doc segments id Hne Hall) as H. cbv zeta in H.
  split; [exact H|]. split; [|split].
  - intros Hs Ht. rewrite H, split_slashFree by exact Hs. cbn [List.filter].
    rewrite Ht. now rewrite List.removelast_last, List.last_last.
  - intros ->. rewrite H. cbn. now rewrite app_nil_r.
  - intros a b Ha Hta Hb Htb ->. rewrite H.
    rewrite split_app_slash, !split_slashFree by assumption.
    cbn [app List.filter]. rewrite Hta, Htb.
    replace (segments ++ [a; b])%list with ((segments ++ [a]) ++ [b])%list
      by now rewrite <- app_assoc.
    rewrite List.removelast_last, List.last_last. f_equal.
    clear -Hne. unfold join. induction segments as [|x r IH]; [congruence|].
    destruct r as [|y r']; [reflexivity|].
    change (joinWith "/" ((x :: y :: r') ++ [a]))
      with (x ++ "/" ++ joinWith "/" ((y :: r') ++ [a])).
    rewrite IH by discriminate.
    change (joinWith "/" (x :: y :: r')) with (x ++ "/" ++ joinWith "/" (y :: r')).
    now rewrite !string_app_assoc.
Qed.

Lemma doc_reference_addresses_witness :
  exists r,
    doc (fun _ => "0") [collectionValue {| collection_path := "vehicles" |}; VStr "v1"]
      = Ok r /\
    splitDocPath (doc_path r) = {| collectionPath := "vehicles"; docId := "v1" |}.
Proof.
  destruct (doc_reference_addresses (fun _ => "0") ["vehicles"] "v1")
    as (r & Hr & _ & H & _).
  - discriminate.
  - repeat constructor.
  - exists r. split; [exact Hr|]. apply H; reflexivity.
Defined.

Lemma leading_slash_neq (p : string) : "/" ++ p <> p.
Proof.
  induction p as [|a p IH]; [discriminate|].
  intros H. injection H as <- H. exact (IH H).
Qed.

(** X15. The reference that [addDoc] returns leads back to the document it
    created when the collection path consists of non-empty segments and the
    generated identifier is non-empty and has no ["/"]: a read through it
    finds the document, with the clone of the data.  With a collection path
    that starts with ["/"] it does not: the document is stored under the
    path as given, while the returned reference is resolved to the path
    without the slash, so a read through it sees whatever that other
    collection holds under the identifier. *)
Theorem addDoc_reference_reads_back :
  forall (randomId : nat -> string) (s : State) (segments : list string)
         (data : DocData),
    let p := join segments in
    let fresh := randomId (drawn s) in
    segments <> [] ->
    List.Forall (fun x => slashFree x = true /\ truthy x = true) segments ->
    slashFree fresh = true -> truthy fresh = true ->
    (let '(result, s') := addDoc randomId {| collection_path := p |} data s in
     exists r d,
       result = Ok r /\
       fst (getDoc r s') = Ok d /\
       snap_id d = fresh /\ snap_exists d = true /\
       snap_data d = Some (cloneData data)) /\
    (let '(result, s') := addDoc randomId {| collection_path := "/" ++ p |} data s in
     exists r d,
       result = Ok r /\
       OMap.get fresh (contents ("/" ++ p) s') = Some (cloneData data) /\
       fst (getDoc r s') = Ok d /\
       snap_exists d = OMap.has fresh (contents p s) /\
       snap_data d = option_map cloneData (OMap.get fresh (contents p s))).
Proof.
  intros randomId s segments data p fresh Hne Hall Hsf Htr.
  assert (Hsplit : splitDocPath (p ++ "/" ++ fresh)
                   = {| collectionPath := p; docId := fresh |}).
  { subst p. rewrite splitDocPath_doc by assumption.
    rewrite split_slashFree by exact Hsf. cbn [List.filter]. rewrite Htr.
    now rewrite List.removelast_last, List.last_last. }
  split.
  - rewrite addDoc_eq. cbn [collection_path]. fold fresh p.
    eexists. eexists. split; [reflexivity|].
    rewrite getDoc_eq. cbn [doc_path fst]. rewrite Hsplit. cbn [collectionPath docId].
    split; [reflexivity|].
    unfold docSnapshotAt, snap_exists, snap_data.
    cbn [snap_id snap_captured createDocSnapshot].
    rewrite contents_written_eq, OMapFacts.get_set_eq.
    repeat split. f_equal. apply cloneData_idempotent.
  - rewrite addDoc_eq. cbn [collection_path]. fold fresh.
    eexists. eexists. split; [reflexivity|].
    rewrite contents_written_eq. split; [apply OMapFacts.get_set_eq|].
    rewrite getDoc_eq. cbn [doc_path fst].
    change (("/" ++ p) ++ "/" ++ fresh) with ("/" ++ (p ++ "/" ++ fresh)).
    rewrite splitDocPath_leading_slash, Hsplit. cbn [collectionPath docId].
    split; [reflexivity|].
    unfold docSnapshotAt, snap_exists, snap_data, OMap.has.
    cbn [snap_captured createDocSnapshot].
    rewrite contents_written_ne by apply leading_slash_neq.
    change (contents p (afterDraw s)) with (contents p s).
    destruct (OMap.get fresh (contents p s)); split; reflexivity.
Qed.

Lemma addDoc_reference_reads_back_witness :
  (exists r d,
      fst (addDoc (fun _ => "k3x9") {| collection_path := "vehicles" |}
             [("vin", VStr "X")] initial) = Ok r /\
      fst (getDoc r (snd (addDoc (fun _ => "k3x9") {| collection_path := "vehicles" |}
                            [("vin", VStr "X")] initial))) = Ok d /\
      snap_exists d = true) /\
  (exists r d,
      fst (addDoc (fun _ => "k3x9") {| collection_path := "/vehicles" |}
             [("vin", VStr "X")] initial) = Ok r /\
      fst (getDoc r (snd (addDoc (fun _ => "k3x9") {| collection_path := "/vehicles" |}
                            [("vin", VStr "X")] initial))) = Ok d /\
      snap_exists d = false).
Proof.
  destruct (addDoc_reference_reads_back (fun _ => "k3x9") initial ["vehicles"]
              [("vin", VStr "X")]) as [H1 H2].
  - discriminate.
  - repeat constructor.
  - reflexivity.
  - reflexivity.
  - cbv zeta in H1, H2.
    change (join ["vehicles"]) with "vehicles" in H1, H2.
    change ("/" ++ "vehicles") with "/vehicles" in H2.
    destruct (addDoc (fun _ => "k3x9") {| collection_path := "vehicles" |}
                [("vin", VStr "X")] initial) as [res1 t1].
    destruct (addDoc (fun _ => "k3x9") {| collection_path := "/vehicles" |}
                [("vin", VStr "X")] initial) as [res2 t2].
    destruct H1 as (r1 & d1 & -> & Hd1 & _ & He1 & _).
    destruct H2 as (r2 & d2 & -> & _ & Hd2 & He2 & _).
    split.
    + exists r1, d1. repeat split; assumption.
    + exists r2, d2. repeat split; assumption.
Defined.

(** * Further properties of timestamps and dates *)

Section TimestampMore.
Import Timestamp.
Local Open Scope Q_scope.




End TimestampMore.




Section DateFacts.
Local Open Scope Q_scope.




End DateFacts.



(** X19. [timestampToDate] treats a plain object with a numeric [seconds]
    (and a numeric or missing [nanoseconds], missing meaning 0) exactly like
    the [Timestamp] with these components, and returns [null] for everything
    that is not shaped like a timestamp: [undefined], [null], booleans,
    numbers, strings, arrays, and objects without a numeric [seconds]. *)
Theorem timestampToDate_duck_typing :
  (forall (fields : list (string * value)) (s n : Q),
      OMap.get "seconds" fields = Some (VNum s) ->
      OMap.get "nanoseconds" fields = Some (VNum n) ->
      timestampToDate (VObj fields) = timestampToDate (VTimestamp s n)) /\
  (forall (fields : list (string * value)) (s : Q),
      OMap.get "seconds" fields = Some (VNum s) ->
      OMap.get "nanoseconds" fields = None ->
      timestampToDate (VObj fields) = timestampToDate (VTimestamp s 0)) /\
  (forall s n : Q,
      timestampToDate (VTimestamp s n)
      = Some (ADate (TimestampDate.toDate (Timestamp.Timestamp s n)))) /\
  (forall v : value, isTimestampLike v = false -> timestampToDate v = Some Null).
Proof.
  split; [|split; [|split]].
  - intros fields s n Hs Hn. cbn. now rewrite Hs, Hn.
  - intros fields s Hs Hn. cbn. now rewrite Hs, Hn.
  - reflexivity.
  - intros v H. unfold timestampToDate.
    destruct (falsy v); [reflexivity|].
    destruct v as [ | | | | | | |fields]; try reflexivity; try discriminate.
    cbn in H. destruct (OMap.get "seconds" fields) as [[ | | | | | | | ]|];
      try reflexivity; discriminate.
Qed.

Lemma timestampToDate_duck_typing_witness :
  timestampToDate (VObj [("seconds", VNum 1700000000); ("nanoseconds", VNum 123000000)])
  = timestampToDate (VTimestamp 1700000000 123000000) /\
  timestampToDate (VStr "2024-01-01") = Some Null.
Proof.
  split.
  - apply (proj1 timestampToDate_duck_typing); reflexivity.
  - apply (proj2 (proj2 (proj2 timestampToDate_duck_typing))). reflexivity.
Defined.

(** * Properties of the vehicle routes *)

Section RouteFacts.
Variable parseDate : string -> Date.
Variable numberToString : Q -> string.
Variable randomId : nat -> string.

Lemma falsy_timestampValue ts : falsy (timestampValue ts) = false.
Proof. reflexivity. Qed.

Lemma normalizeUpdatedAt_cases (v : value) :
  normalizeUpdatedAt parseDate v = v \/
  exists ts, normalizeUpdatedAt parseDate v = timestampValue ts.
Proof.
  unfold normalizeUpdatedAt. destruct (falsy v); [now left|].
  destruct v as [ | | |n|s| | | ]; try (now left).
  - right. eauto.
  - destruct (TimestampDate.fromDate (parseDate s)); [right; eauto | now left].
Qed.

Lemma falsy_normalizeUpdatedAt (v : value) :
  falsy (normalizeUpdatedAt parseDate v) = falsy v.
Proof.
  unfold normalizeUpdatedAt. destruct (falsy v) eqn:E; [exact E|].
  destruct v as [ | | |n|s| | | ]; try exact E; try reflexivity.
  destruct (TimestampDate.fromDate (parseDate s)); [reflexivity | exact E].
Qed.

Lemma doc_collection_any (c : CollectionRef) (identifier : value) :
  doc numberToString [collectionValue c; identifier]
  = Ok {| doc_path := collection_path c ++ "/" ++ toString numberToString identifier |}.
Proof. reflexivity. Qed.






End RouteFacts.

(** X20. [normalizeUpdatedAt] is idempotent and either returns its argument
    or a [Timestamp]: a [Timestamp] is kept, a non-zero number of
    milliseconds becomes [Timestamp.fromMillis] of it, a non-empty string
    becomes the timestamp of the date it parses to and is kept as it is when
    it does not parse; every falsy value (so also the number 0, the epoch
    itself) and every other value is returned unchanged. *)
Theorem normalizeUpdatedAt_behaviour :
  forall (parseDate : string -> Date) (v : value),
    let normalize := normalizeUpdatedAt parseDate in
    normalize (normalize v) = normalize v /\
    falsy (normalize v) = falsy v /\
    (falsy v = true -> normalize v = v) /\
    (forall s n, normalize (VTimestamp s n) = VTimestamp s n) /\
    (forall n : Q, falsy (VNum n) = false ->
        normalize (VNum n) = timestampValue (Timestamp.fromMillis n)) /\
    (forall (s : string) (time : Z), truthy s = true ->
        parseDate s = ValidDate time ->
        normalize (VStr s) = timestampValue (Timestamp.fromMillis (inject_Z time))) /\
    (forall s : string, parseDate s = InvalidDate -> normalize (VStr s) = VStr s) /\
    (forall items, normalize (VArr items) = VArr items) /\
    (forall fields, normalize (VObj fields) = VObj fields) /\
    (forall b, normalize (VBool b) = VBool b).
Proof.
  intros parseDate v normalize. subst normalize.
  split; [|split; [|split; [|split; [|split; [|split; [|split; [|split; [|split]]]]]]]].
  - destruct (normalizeUpdatedAt_cases parseDate v) as [E|[ts E]]; rewrite E.
    + exact E.
    + reflexivity.
  - apply falsy_normalizeUpdatedAt.
  - intros H. unfold normalizeUpdatedAt. now rewrite H.
  - reflexivity.
  - intros n H. unfold normalizeUpdatedAt. now rewrite H.
  - intros s time Hs Hp. unfold normalizeUpdatedAt. cbn [falsy]. rewrite Hs, Hp. reflexivity.
  - intros s Hp. unfold normalizeUpdatedAt. cbn [falsy]. rewrite Hp.
    now destruct (negb (truthy s)).
  - reflexivity.
  - reflexivity.
  - intros []; reflexivity.
Qed.

(** X21. The PATCH route never answers 500.  It answers 400 with
    [{error: "id is required"}] and touches nothing when the body has no
    truthy [id]; otherwise it answers 200 with [{ok: true}] after a merging
    [setDoc] at the path ["vehicles/" + String(id)] of the spread updates,
    with [updatedAt] normalized when present. *)
Theorem patchVehicle_responses :
  forall (parseDate : string -> Date) (numberToString : Q -> string)
         (body : value) (s : State),
    let id := property "id" (orEmptyObject body) in
    let updates := property "updates" (orEmptyObject body) in
    patchVehicle parseDate numberToString body s
    = if falsy id
      then Some ({| statusCode := 400;
                    sent := VObj [("error", VStr "id is required")] |}, s)
      else
        match spreadValue (orEmptyObject updates) with
        | None => None
        | Some nextUpdates =>
            Some ({| statusCode := 200; sent := VObj [("ok", VBool true)] |},
                  snd (setDoc {| doc_path := "vehicles/" ++ toString numberToString id |}
                         (normalizeField parseDate nextUpdates) true s))
        end.
Proof.
  intros parseDate numberToString body s id updates.
  unfold patchVehicle. fold id updates.
  destruct (falsy id); [reflexivity|].
  destruct (spreadValue (orEmptyObject updates)) as [u|]; [|reflexivity].
  rewrite doc_collection_any. cbn [collection collection_path].
  change ("vehicles" ++ "/" ++ toString numberToString id)
    with ("vehicles/" ++ toString numberToString id).
  pose proof (setDoc_eq {| doc_path := "vehicles/" ++ toString numberToString id |}
                (normalizeField parseDate u) true s) as E.
  cbv zeta in E.
  destruct (setDoc {| doc_path := "vehicles/" ++ toString numberToString id |}
              (normalizeField parseDate u) true s) as [r t].
  injection E as -> _. reflexivity.
Qed.

(** X22. PATCH is an upsert: for a non-empty string id without ["/"] and
    updates that are an object, a request for an id that is not in the
    ["vehicles"] collection answers 200 and creates the document, with
    exactly the clone of the updates ([updatedAt] normalized); for an id
    that is there it answers 200 and merges.  Either way the document exists
    afterwards and all other documents are as before. *)
Theorem patchVehicle_upserts :
  forall (parseDate : string -> Date) (numberToString : Q -> string)
         (id : string) (updates : list (string * value)) (s : State),
    let body := VObj [("id", VStr id); ("updates", VObj updates)] in
    let written := normalizeField parseDate (OMap.copy updates) in
    slashFree id = true -> truthy id = true ->
    exists s',
      patchVehicle parseDate numberToString body s
      = Some ({| statusCode := 200; sent := VObj [("ok", VBool true)] |}, s') /\
      OMap.get id (contents "vehicles" s')
      = Some (match OMap.get id (contents "vehicles" s) with
              | Some existing => OMap.spread existing (cloneData written)
              | None => cloneData written
              end) /\
      (forall q other, q <> "vehicles" \/ other <> id ->
          OMap.get other (contents q s') = OMap.get other (contents q s)).
Proof.
  intros parseDate numberToString id updates s body written Hsf Htr.
  assert (Hsplit : splitDocPath ("vehicles/" ++ id)
                   = {| collectionPath := "vehicles"; docId := id |}).
  { change ("vehicles/" ++ id) with (join ["vehicles"] ++ "/" ++ id).
    rewrite splitDocPath_doc by (try discriminate; repeat constructor).
    rewrite split_slashFree by exact Hsf. cbn [List.filter]. rewrite Htr. reflexivity. }
  rewrite patchVehicle_responses. subst body. cbn [orEmptyObject property OMap.get].
  cbn [String.eqb Ascii.eqb Bool.eqb falsy]. rewrite Htr. cbn [negb spreadValue].
  fold written. eexists. split; [reflexivity|].
  rewrite setDoc_eq. cbn [doc_path snd toString]. rewrite Hsplit. cbn [collectionPath docId].
  split.
  - rewrite contents_written_eq. unfold setDocContent. cbn [andb].
    unfold OMap.has. destruct (OMap.get id (contents "vehicles" s));
      apply OMapFacts.get_set_eq.
  - intros q other Hne. destruct (String.eqb_spec "vehicles" q) as [<-|Hq].
    + rewrite contents_written_eq. unfold setDocContent.
      destruct (true && OMap.has id (contents "vehicles" s));
        apply OMapFacts.get_set_ne; destruct Hne; congruence.
    + now rewrite contents_written_ne.
Qed.

Lemma patchVehicle_upserts_witness :
  exists s',
    patchVehicle (fun _ => InvalidDate) (fun _ => "0")
      (VObj [("id", VStr "v9"); ("updates", VObj [("make", VStr "Honda")])]) initial
    = Some ({| statusCode := 200; sent := VObj [("ok", VBool true)] |}, s') /\
    OMap.get "v9" (contents "vehicles" s') = Some [("make", VStr "Honda")].
Proof.
  destruct (patchVehicle_upserts (fun _ => InvalidDate) (fun _ => "0") "v9"
              [("make", VStr "Honda")] initial eq_refl eq_refl) as (s' & H1 & H2 & _).
  exists s'. split; [exact H1|]. etransitivity; [exact H2 | reflexivity].
Defined.



(** * Properties of the seed data and of the background task *)

Lemma distinct_NoDup (l : list string) : distinct l = true -> List.NoDup l.
Proof.
  induction l as [|x r IH]; [constructor|]. simpl. intros H.
  apply andb_prop in H as [Hx Hr]. constructor; [|now apply IH].
  intros Hin. unfold inb in Hx.
  assert (E : existsb (String.eqb x) r = true).
  { apply existsb_exists. exists x. split; [exact Hin | apply String.eqb_refl]. }
  rewrite E in Hx. discriminate.
Qed.

Section SeedFacts.
Variable clock : nat -> Z.

Lemma initialVehicle_id index :
  OMap.get "id" (initialVehicle clock index) = Some (VStr ("v" ++ decimal (index + 1))).
Proof. reflexivity. Qed.

Lemma initialVehicle_keys index :
  OMap.keys (initialVehicle clock index)
  = ["id"; "vin"; "make"; "model"; "status"; "book_price"; "updatedAt";
     "ownerId"; "updatedBy"].
Proof. reflexivity. Qed.

Lemma initialVehicles_ids :
  map (OMap.get "id") (initialVehicles clock)
  = map (fun i => Some (VStr i)) seededVehicleIds.
Proof.
  unfold initialVehicles, seededVehicleIds. rewrite !map_map.
  apply map_ext. intros index. apply initialVehicle_id.
Qed.

Lemma seededVehicleIds_NoDup : List.NoDup seededVehicleIds.
Proof. apply distinct_NoDup. vm_compute. reflexivity. Qed.

Lemma initialVehicles_wellformed :
  List.Forall (fun item : DocData => List.NoDup (OMap.keys item)) (initialVehicles clock).
Proof.
  apply List.Forall_forall. intros item Hin.
  apply in_map_iff in Hin as (index & <- & _). rewrite initialVehicle_keys.
  apply distinct_NoDup. reflexivity.
Qed.

Lemma nth_user_id index :
  List.In (user_id (nth (index mod length initialUsers) initialUsers
                        (mkUserSeed "" "" ""))) seededUserIds.
Proof.
  unfold seededUserIds. apply in_map, nth_In.
  apply Nat.mod_upper_bound. discriminate.
Qed.

(** the stored form of a seeded vehicle *)
Lemma stored_vehicle_fields index :
  let d := cloneData (OMap.delete "id" (initialVehicle clock index)) in
  OMap.get "id" d = None /\
  OMap.get "ownerId" d
    = Some (VStr (user_id (nth (index mod length initialUsers) initialUsers
                               (mkUserSeed "" "" "")))) /\
  OMap.get "updatedBy" d
    = Some (VStr (user_id (nth ((index + 1) mod length initialUsers) initialUsers
                               (mkUserSeed "" "" "")))) /\
  OMap.get "vin" d = Some (VStr (buildVin index)).
Proof. repeat split. Qed.

End SeedFacts.

(** X24. Seeding gives, from any state and whatever the clock reads, a
    ["users"] collection with the documents [u1], [u2], [u3] and a
    ["vehicles"] collection with the 100 documents [v1] to [v100], in this
    order, without generating an identifier.  No stored vehicle carries an
    [id] field, and the [ownerId] and the [updatedBy] of every vehicle are
    identifiers of seeded users. *)
Theorem seedCollections_integrity :
  forall (randomId : nat -> string) (clock : nat -> Z) (s : State),
    exists s',
      seedCollections randomId clock s = Some s' /\
      snapshotIds "users" s' = ["u1"; "u2"; "u3"] /\
      snapshotIds "vehicles" s' = seededVehicleIds /\
      length (contents "vehicles" s') = 100%nat /\
      drawn s' = drawn s /\
      (forall id d,
          OMap.get id (contents "vehicles" s') = Some d ->
          OMap.get "id" d = None /\
          exists owner updater,
            OMap.get "ownerId" d = Some (VStr owner) /\
            OMap.get "updatedBy" d = Some (VStr updater) /\
            List.In owner (snapshotIds "users" s') /\
            List.In updater (snapshotIds "users" s')).
Proof.
  intros randomId clock s. unfold seedCollections.
  destruct (replaceCollection_explicit_eq randomId s "users"
              (map userObject initialUsers) (Some "id") seededUserIds)
    as (s1 & Hs1 & _ & Hu & _ & Hd1 & _).
  { reflexivity. }
  { apply distinct_NoDup. reflexivity. }
  { repeat constructor; simpl; intuition discriminate. }
  rewrite Hs1.
  destruct (replaceCollection_explicit_eq randomId s1 "vehicles"
              (initialVehicles clock) (Some "id") seededVehicleIds
              (initialVehicles_ids clock) seededVehicleIds_NoDup
              (initialVehicles_wellformed clock))
    as (s2 & Hs2 & Hc & Hv & Hlen & Hd2 & Hframe & _).
  assert (Husers : snapshotIds "users" s2 = ["u1"; "u2"; "u3"]).
  { rewrite snapshotIds_keys, Hframe by discriminate.
    rewrite <- snapshotIds_keys. exact Hu. }
  exists s2. split; [exact Hs2|]. split; [exact Husers|]. split; [exact Hv|].
  split; [rewrite Hlen; unfold initialVehicles; now rewrite length_map, length_seq|].
  split; [congruence|].
  intros id d Hget. rewrite Husers.
  assert (Hin : exists index,
             d = cloneData (OMap.delete "id" (initialVehicle clock index))).
  { rewrite Hc in Hget.
    assert (List.In d (map (fun item => cloneData (OMap.delete "id" item))
                           (initialVehicles clock))).
    { clear -Hget. revert Hget.
      generalize (map (fun item => cloneData (OMap.delete "id" item))
                      (initialVehicles clock)).
      induction seededVehicleIds as [|i r IH]; intros [|x xs] H; try discriminate.
      simpl in H. destruct (String.eqb id i).
      - injection H as <-. now left.
      - right. exact (IH _ H). }
    apply in_map_iff in H as (item & <- & Hitem).
    apply in_map_iff in Hitem as (index & <- & _). eauto. }
  destruct Hin as (index & ->).
  destruct (stored_vehicle_fields clock index) as (H1 & H2 & H3 & _).
  split; [exact H1|]. eexists. eexists.
  split; [exact H2|]. split; [exact H3|].
  split; [exact (nth_user_id index) | exact (nth_user_id (index + 1))].
Qed.

Section TickFacts.
Variable randomId : nat -> string.
Variable numberToString : Q -> string.
Implicit Types (s : State) (c : Collection).

Lemma docs_snapshotOf p c :
  docs (snapshotOf p c) = map (fun e => createDocSnapshot p (fst e) (Some (snd e))) c.
Proof.
  unfold snapshotOf, createCollectionSnapshot.
  now rewrite ensureCollection_eq, contents_putCollection_eq.
Qed.

Lemma empty_snapshotOf p c : empty (snapshotOf p c) = (length c =? 0)%nat.
Proof.
  unfold snapshotOf, createCollectionSnapshot.
  rewrite ensureCollection_eq, contents_putCollection_eq. cbn [fst empty].
  now rewrite length_map.
Qed.

(** a fraction of [n] rounded down is an index below [n] *)
Lemma floor_fraction_index (r : Q) (n : nat) :
  (0 <= r)%Q -> (r < 1)%Q -> (0 < n)%nat ->
  (0 <= Qfloor (r * inject_Z (Z.of_nat n)) < Z.of_nat n)%Z.
Proof.
  destruct r as [a b]. unfold Qle, Qlt, Qmult, inject_Z. simpl. intros H0 H1 Hn.
  rewrite Z.mul_1_r in H0, H1. rewrite Pos.mul_1_r.
  split.
  - apply Z.div_pos; nia.
  - apply Z.div_lt_upper_bound; nia.
Qed.

Lemma element_in_range {A} (xs : list A) (i : Z) :
  (0 <= i < Z.of_nat (length xs))%Z ->
  exists x, element xs i = Some x /\ List.In x xs.
Proof.
  intros [H0 H1]. unfold element.
  destruct (Z.ltb_spec i 0) as [H|_]; [lia|].
  destruct (nth_error xs (Z.to_nat i)) as [x|] eqn:E.
  - exists x. split; [reflexivity|]. eapply nth_error_In. exact E.
  - apply nth_error_None in E. lia.
Qed.

(** [updateDoc], whatever its outcome, keeps the ids of every collection *)
Lemma keys_updateDoc (docRef : DocRef) (data : DocData) s q :
  OMap.keys (contents q (snd (updateDoc docRef data s))) = OMap.keys (contents q s).
Proof.
  rewrite updateDoc_eq.
  destruct (OMap.has _ (contents _ s)) eqn:Hhas; cbn [snd].
  - rewrite contents_written.
    destruct (String.eqb_spec (collectionPath (splitDocPath (doc_path docRef))) q)
      as [<-|Hne]; [|reflexivity].
    unfold updateDocContent. now apply OMapFacts.keys_set_present.
  - now rewrite contents_put_same.
Qed.

Lemma contents_afterReads q s : contents q (afterReads s) = contents q s.
Proof.
  unfold afterReads.
  rewrite <- (contents_put_same "users" "vehicles" s) at 1.
  now rewrite !contents_put_same.
Qed.

Lemma tick_reads r1 r2 r3 r4 dateNow s :
  exists body,
    tick numberToString r1 r2 r3 r4 dateNow s
    = (if (length (contents "vehicles" s) =? 0)%nat
       then (Ok tt, afterReads s)
       else body) /\
    body
    = match element (docs (snapshotOf "vehicles" (contents "vehicles" s)))
              (Qfloor (r1 * inject_Z (Z.of_nat
                 (length (docs (snapshotOf "vehicles" (contents "vehicles" s))))))) with
      | None => (Throw typeErrorOfUndefined, afterReads s)
      | Some target =>
          let current := match snap_data target with Some d => d | None => [] end in
          let availableUsers :=
            if empty (snapshotOf "users" (contents "users" s))
            then map userObject initialUsers
            else map (fun docSnap =>
                        OMap.assign [("id", VStr (snap_id docSnap))]
                          (match snap_data docSnap with Some d => d | None => [] end))
                     (docs (snapshotOf "users" (contents "users" s))) in
          let randomUser :=
            element availableUsers
              (Qfloor (r2 * inject_Z (Z.of_nat (length availableUsers)))) in
          let updatedBy :=
            match randomUser with
            | Some user =>
                match OMap.get "id" user with
                | None | Some VUndefined | Some VNull => VStr "u1"
                | Some id => id
                end
            | None => VStr "u1"
            end in
          let nextUpdates :=
            [ ("updatedAt", timestampValue (TimestampDate.now dateNow));
              ("updatedBy", updatedBy) ] in
          let nextUpdates :=
            if negb (Qle_bool (7 # 10) r3)
            then
              OMap.set "book_price"
                (VNum (maxNumber 500
                         ((match OMap.get "book_price" current with
                           | Some (VNum price) => price
                           | _ => 15000%Q
                           end) + inject_Z (round (r4 * 900 - 450))))) nextUpdates
            else nextUpdates in
          updateDoc {| doc_path := "vehicles/" ++ snap_id target |} nextUpdates
                    (afterReads s)
      end.
Proof.
  eexists. split; [|reflexivity].
  unfold tick, collection. rewrite !getDocs_eq. cbn [collection_path].
  rewrite (contents_putCollection_ne "vehicles" "users") by discriminate.
  fold (afterReads s). rewrite empty_snapshotOf.
  destruct (length (contents "vehicles" s) =? 0)%nat; [reflexivity|].
  destruct (element _ _) as [target|]; [|reflexivity].
  cbv zeta. rewrite doc_collection_any. cbn [collection_path]. reflexivity.
Qed.

End TickFacts.

Section TickTheorems.
Variable numberToString : Q -> string.
Implicit Types (s : State) (c : Collection).

Lemma maxNumber_lower (a b : Q) : (a <= maxNumber a b)%Q.
Proof.
  unfold maxNumber. destruct (Qle_bool a b) eqn:E.
  - now apply Qle_bool_iff.
  - apply Qle_refl.
Qed.

(** the fields the background task writes *)
Lemma tick_updates_shape (updatedAt updatedBy : value) (change : bool) (price : Q) :
  let next :=
    if change
    then OMap.set "book_price" (VNum price)
           [("updatedAt", updatedAt); ("updatedBy", updatedBy)]
    else [("updatedAt", updatedAt); ("updatedBy", updatedBy)] in
  List.NoDup (OMap.keys next) /\
  OMap.get "updatedAt" next = Some updatedAt /\
  OMap.get "book_price" next = (if change then Some (VNum price) else None) /\
  (forall k, k <> "updatedAt" -> k <> "updatedBy" -> k <> "book_price" ->
             OMap.get k next = None).
Proof.
  destruct change; cbn.
  - split; [apply distinct_NoDup; reflexivity|]. split; [reflexivity|].
    split; [reflexivity|]. intros k H1 H2 H3.
    destruct (String.eqb_spec k "updatedAt"); [congruence|].
    destruct (String.eqb_spec k "updatedBy"); [congruence|].
    destruct (String.eqb_spec k "book_price"); [congruence | reflexivity].
  - split; [apply distinct_NoDup; reflexivity|]. split; [reflexivity|].
    split; [reflexivity|]. intros k H1 H2 H3.
    destruct (String.eqb_spec k "updatedAt"); [congruence|].
    destruct (String.eqb_spec k "updatedBy"); [congruence | reflexivity].
Qed.

End TickTheorems.

(** X25. A run of the background task never adds or removes a document:
    the ids of every collection, in their order, the listener registry and
    the identifier counter are after the run what they were before it,
    whatever the random draws.  On an empty ["vehicles"] collection it does
    nothing at all: no document changes and no listener is invoked. *)
Theorem tick_keeps_documents_in_place :
  forall (numberToString : Q -> string) (r1 r2 r3 r4 : Q) (dateNow : Z) (s : State),
    let s' := snd (tick numberToString r1 r2 r3 r4 dateNow s) in
    (forall q, snapshotIds q s' = snapshotIds q s) /\
    listeners s' = listeners s /\
    drawn s' = drawn s /\
    (contents "vehicles" s = [] ->
     fst (tick numberToString r1 r2 r3 r4 dateNow s) = Ok tt /\
     calls s' = calls s /\
     forall q, contents q s' = contents q s).
Proof.
  intros numberToString r1 r2 r3 r4 dateNow s s'. subst s'.
  destruct (tick_reads numberToString r1 r2 r3 r4 dateNow s) as (body & -> & Hbody).
  assert (Hb : (forall q, OMap.keys (contents q (snd body)) = OMap.keys (contents q s)) /\
               listeners (snd body) = listeners s /\ drawn (snd body) = drawn s).
  { rewrite Hbody. destruct (element _ _) as [target|].
    - cbv zeta. split; [|split].
      + intros q. now rewrite keys_updateDoc, contents_afterReads.
      + rewrite updateDoc_eq. now destruct (OMap.has _ _).
      + rewrite updateDoc_eq. now destruct (OMap.has _ _).
    - cbn [snd]. split; [|split; reflexivity].
      intros q. now rewrite contents_afterReads. }
  destruct Hb as (Hk & Hl & Hd).
  destruct (length (contents "vehicles" s) =? 0)%nat eqn:E; cbn [fst snd].
  - split; [|split; [reflexivity|split; [reflexivity|]]].
    + intros q. now rewrite !snapshotIds_keys, contents_afterReads.
    + intros _. split; [reflexivity|]. split; [reflexivity|].
      intros q. apply contents_afterReads.
  - split; [|split; [exact Hl|split; [exact Hd|]]].
    + intros q. rewrite !snapshotIds_keys. apply Hk.
    + intros Hnil. rewrite Hnil in E. discriminate.
Qed.

(** X26. With draws of [Math.random()] in [0, 1), in a well-formed state
    whose ["vehicles"] collection is not empty and holds only non-empty ids
    without ["/"], a run of the background task does not reject and updates
    exactly one vehicle: every other document is as before, and of the
    chosen vehicle only [updatedAt], [updatedBy] and [book_price] can differ.
    [updatedAt] becomes [Timestamp.now()]; [book_price] is rewritten when the
    third draw is below 0.7, to a number that is at least 500, and is left
    alone otherwise. *)
Theorem tick_updates_one_vehicle :
  forall (numberToString : Q -> string) (r1 r2 r3 r4 : Q) (dateNow : Z) (s : State),
    let s' := snd (tick numberToString r1 r2 r3 r4 dateNow s) in
    wfState s ->
    (0 <= r1)%Q -> (r1 < 1)%Q ->
    contents "vehicles" s <> [] ->
    (forall id, List.In id (snapshotIds "vehicles" s) ->
                slashFree id = true /\ truthy id = true) ->
    fst (tick numberToString r1 r2 r3 r4 dateNow s) = Ok tt /\
    exists id d d',
      List.In id (snapshotIds "vehicles" s) /\
      OMap.get id (contents "vehicles" s) = Some d /\
      OMap.get id (contents "vehicles" s') = Some d' /\
      (forall q other, q <> "vehicles" \/ other <> id ->
          OMap.get other (contents q s') = OMap.get other (contents q s)) /\
      (forall k, k <> "updatedAt" -> k <> "updatedBy" -> k <> "book_price" ->
                 OMap.get k d' = OMap.get k d) /\
      OMap.get "updatedAt" d' = Some (timestampValue (TimestampDate.now dateNow)) /\
      (if negb (Qle_bool (7 # 10) r3)
       then exists price, OMap.get "book_price" d' = Some (VNum price) /\
                          (500 <= price)%Q
       else OMap.get "book_price" d' = OMap.get "book_price" d).
Proof.
  intros numberToString r1 r2 r3 r4 dateNow s s' Hwf H0 H1 Hne Hids. subst s'.
  destruct (tick_reads numberToString r1 r2 r3 r4 dateNow s) as (body & -> & Hbody).
  set (c := contents "vehicles" s) in *.
  assert (Hlen : (length c =? 0)%nat = false).
  { destruct c; [congruence | reflexivity]. }
  rewrite Hlen. clear Hlen.
  assert (Hok : docsOk c) by (subst c; now apply wfState_contents).
  (* the chosen document *)
  rewrite docs_snapshotOf, length_map in Hbody.
  destruct (element_in_range
              (map (fun e => createDocSnapshot "vehicles" (fst e) (Some (snd e))) c)
              (Qfloor (r1 * inject_Z (Z.of_nat (length c)))))
    as (target & Helt & Hin).
  { rewrite length_map. apply floor_fraction_index; try assumption.
    destruct c; [congruence | simpl; lia]. }
  rewrite Helt in Hbody. cbv zeta in Hbody.
  apply in_map_iff in Hin as ([id d] & <- & Hin). cbn [fst snd snap_id createDocSnapshot] in Hbody.
  assert (Hget : OMap.get id c = Some d) by (apply In_get_NoDup; [apply Hok | exact Hin]).
  assert (Hkey : List.In id (snapshotIds "vehicles" s)).
  { rewrite snapshotIds_keys. fold c. unfold OMap.keys.
    apply in_map_iff. now exists (id, d). }
  destruct (Hids id Hkey) as [Hsf Htr].
  assert (Hsplit : splitDocPath ("vehicles/" ++ id)
                   = {| collectionPath := "vehicles"; docId := id |}).
  { change ("vehicles/" ++ id) with (join ["vehicles"] ++ "/" ++ id).
    rewrite splitDocPath_doc by (try discriminate; repeat constructor).
    rewrite split_slashFree by exact Hsf. cbn [List.filter]. rewrite Htr. reflexivity. }
  (* the update *)
  match type of Hbody with
  | body = updateDoc _ ?n _ => set (next := n) in *
  end.
  rewrite updateDoc_eq in Hbody. cbn [doc_path] in Hbody. rewrite Hsplit in Hbody.
  cbn [collectionPath docId] in Hbody. rewrite contents_afterReads in Hbody. fold c in Hbody.
  assert (Hhas : OMap.has id c = true) by (apply OMapFacts.has_get; eauto).
  rewrite Hhas in Hbody. subst body. cbn [fst snd].
  split; [reflexivity|].
  exists id, d, (OMap.spread d (cloneData next)).
  split; [exact Hkey|]. split; [exact Hget|].
  rewrite contents_written_eq. unfold updateDocContent. rewrite Hget.
  split; [apply OMapFacts.get_set_eq|].
  split.
  { intros q other Hq. destruct (String.eqb_spec "vehicles" q) as [<-|Hneq].
    - rewrite contents_written_eq. fold c.
      apply OMapFacts.get_set_ne. destruct Hq; congruence.
    - rewrite contents_written_ne by exact Hneq. now rewrite contents_afterReads. }
  assert (Hd : List.NoDup (OMap.keys d)).
  { exact (proj1 (docsOk_get id d c Hok Hget)). }
  assert (Hfield : forall k,
             OMap.get k (OMap.spread d (cloneData next))
             = match OMap.get k next with
               | Some v => Some (clone v)
               | None => OMap.get k d
               end).
  { intros k. rewrite OMapFacts.get_spread;
      [|exact Hd | apply NoDup_keys_cloneData].
    rewrite get_cloneData; [now destruct (OMap.get k next)|].
    subst next. destruct (negb (Qle_bool (7 # 10) r3));
      [apply OMapFacts.NoDup_keys_set|]; apply distinct_NoDup; reflexivity. }
  subst next.
  match goal with
  | Hf : forall k, _ = match OMap.get k (if _ then OMap.set _ (VNum ?p) [(_, ?ua); (_, ?ub)] else _) with _ => _ end |- _ =>
      pose proof (tick_updates_shape ua ub (negb (Qle_bool (7 # 10) r3)) p)
        as (_ & Hua & Hbp & Hother)
  end.
  cbv zeta in Hua, Hbp, Hother.
  split; [|split].
  - intros k K1 K2 K3. rewrite Hfield, (Hother k K1 K2 K3). reflexivity.
  - rewrite Hfield, Hua. reflexivity.
  - rewrite Hfield, Hbp. destruct (negb (Qle_bool (7 # 10) r3)); [|reflexivity].
    eexists. split; [reflexivity|]. apply maxNumber_lower.
Qed.

Lemma tick_updates_one_vehicle_witness :
  let s := snd (setDoc {| doc_path := "vehicles/v1" |}
                  [("vin", VStr "X"); ("book_price", VNum 600)] false initial) in
  fst (tick (fun _ => "0") (1 # 2) (1 # 2) (1 # 2) 0 1700000000123 s) = Ok tt.
Proof.
  intros s.
  apply (tick_updates_one_vehicle (fun _ => "0") (1 # 2) (1 # 2) (1 # 2) 0
           1700000000123 s).
  - apply (wfState_run (fun _ => "k3x9")
             [OpSetDoc {| doc_path := "vehicles/v1" |}
                [("vin", VStr "X"); ("book_price", VNum 600)] false] initial s).
    + reflexivity.
    + exact wfState_initial.
  - unfold Qle. simpl. lia.
  - unfold Qlt. simpl. lia.
  - discriminate.
  - intros id [<-|[]]. split; reflexivity.
Defined.
